(** * vibemem: tokenizer, store, relevance scorer and budget compressor

    A shallow embedding of [vibemem/core/tokens.py] and
    [vibemem/core/memory.py], and the properties of the ranking and
    budgeting core.

    Conventions of the embedding.
    - Python [str] values are [string]s; case folding and the whitespace
      classes of [str.lower], [str.split] and [str.rstrip] are those of the
      ASCII range.
    - Python [int]s are [Z]; [//] is [Z.div] (both round towards minus
      infinity) and raises [ZeroDivisionError] on a zero divisor.
    - [time.time()] readings and timestamps are exact rationals ([Q]).
    - The [tiktoken] encoder is an external service: it is a parameter
      ([Encoder]) of everything that counts or truncates tokens.
    - A memory item (a dict with a fixed set of keys) is the record
      [Item.t]; the [categories] dict is a [gmap string Aggregate.t]. *)

From Stdlib Require Import ZArith QArith String Ascii List Permutation Sorted Lia.
From stdpp Require Import gmap strings list fin_maps.

Close Scope Q_scope.
Open Scope Z_scope.

(** ** Python strings, slices and sorting *)

Module Py.

(** [str.isspace] on the ASCII range: TAB..CR, FS..US and the blank. *)
Definition is_space (c : ascii) : bool :=
  let n := N_of_ascii c in
  ((9 <=? n) && (n <=? 13) || (28 <=? n) && (n <=? 31) || (n =? 32))%N.

Definition lower_char (c : ascii) : ascii :=
  let n := N_of_ascii c in
  if ((65 <=? n) && (n <=? 90))%N then ascii_of_N (n + 32) else c.

(** [s.lower()] *)
Fixpoint lower (s : string) : string :=
  match s with
  | EmptyString => EmptyString
  | String c s' => String (lower_char c) (lower s')
  end.

(** [needle in hay] *)
Fixpoint contains (needle hay : string) : bool :=
  String.prefix needle hay ||
  match hay with
  | EmptyString => false
  | String _ hay' => contains needle hay'
  end.

(** [s.split()]: the maximal runs of non-whitespace characters.  [cur] is
    the run being read, most recent character first. *)
Fixpoint split_go (cur : string) (s : string) : list string :=
  match s with
  | EmptyString =>
      match cur with EmptyString => [] | _ => [String.rev cur] end
  | String c s' =>
      if is_space c then
        match cur with
        | EmptyString => split_go EmptyString s'
        | _ => String.rev cur :: split_go EmptyString s'
        end
      else split_go (String c cur) s'
  end.

Definition split (s : string) : list string := split_go EmptyString s.

(** [s.rstrip()] *)
Fixpoint rstrip (s : string) : string :=
  match s with
  | EmptyString => EmptyString
  | String c s' =>
      match rstrip s' with
      | EmptyString => if is_space c then EmptyString else String c EmptyString
      | r => String c r
      end
  end.

(** [s.split(":", 1)] when [":" in s]: the text before the first colon
    and the text after it; [None] when [s] has no colon. *)
Fixpoint split_colon (s : string) : option (string * string) :=
  match s with
  | EmptyString => None
  | String c s' =>
      if Ascii.eqb c ":"%char then Some (EmptyString, s')
      else match split_colon s' with
           | Some (a, b) => Some (String c a, b)
           | None => None
           end
  end.

(** [l[:n]]: a negative [n] counts from the end. *)
Definition slice_to {A} (n : Z) (l : list A) : list A :=
  if 0 <=? n then take (Z.to_nat n) l
  else take (length l - Z.to_nat (- n)) l.

(** [sum(...)] over integers *)
Definition sum (l : list Z) : Z := foldr Z.add 0 l.

(** [list.sort(key=...)]: a stable sort; an element moves in front of an
    earlier one only when its key is strictly smaller. *)
Section Sort.
Context {A K : Type} (lt : K → K → bool) (key : A → K).

Fixpoint insert (x : A) (l : list A) : list A :=
  match l with
  | [] => [x]
  | y :: l' => if lt (key y) (key x) then y :: insert x l' else x :: y :: l'
  end.

(** Elements are inserted from the last to the first, each in front of
    the later elements whose key is not smaller. *)
Definition sort (l : list A) : list A := foldr insert [] l.
End Sort.

(** [<] on rationals *)
Definition Qlt_bool (x y : Q) : bool := negb (Qle_bool y x).

(** [<] on pairs [(int, float)]: lexicographic. *)
Definition pair_lt (a b : Z * Q) : bool :=
  (a.1 <? b.1) || ((a.1 =? b.1) && Qlt_bool a.2 b.2).

(** Exceptions that the modelled code can raise. *)
Inductive exn := ZeroDivisionError.

Inductive outcome (A : Type) :=
| Return (a : A)
| Raise (e : exn).
Arguments Return {A} a.
Arguments Raise {A} e.

End Py.

(** ** The encoder service *)

(** What the code uses of a [tiktoken] encoding: [encode] and [decode]. *)
Record Encoder := {
  token : Type;
  encode : string → list token;
  decode : list token → string;
}.

(** A reference encoder with one token per character; [decode] inverts
    [encode]. *)
Definition char_encoder : Encoder := {|
  token := ascii;
  encode := list_ascii_of_string;
  decode := string_of_list_ascii;
|}.

(** ** Memory items *)

Module Item.
Record t := mk {
  id : string;
  category : string;
  subcategory : option string;
  content : string;
  priority : string;
  tokens : Z;
  timestamp : Q;
  compressed : bool;
}.
End Item.

(** ** tokens.py: TokenCounter *)

Module TokenCounter.
Section WithEncoder.
Context (enc : Encoder).

Definition count (text : string) : Z :=
  match text with
  | EmptyString => 0
  | _ => Z.of_nat (length (encode enc text))
  end.

Definition truncate_to_tokens (text : string) (max_tokens : Z) : string :=
  let tokens := encode enc text in
  if Z.of_nat (length tokens) <=? max_tokens then text
  else decode enc (Py.slice_to max_tokens tokens).

End WithEncoder.
End TokenCounter.

(** ** tokens.py: CompressionStrategy *)

Module CompressionStrategy.
Import Py.

Definition default_preserve : list string := ["critical"; "error"; "arch"].

(** [preserve_categories or ["critical", "error", "arch"]]: both [None]
    and the empty list are falsy. *)
Definition preserve_or_default (preserve_categories : option (list string))
  : list string :=
  match preserve_categories with
  | None => default_preserve
  | Some [] => default_preserve
  | Some l => l
  end.

(** [x in l] for a list of strings *)
Definition mem (x : string) (l : list string) : bool :=
  existsb (String.eqb x) l.

Definition is_protected (preserve_categories : list string) (item : Item.t)
  : bool :=
  String.eqb (Item.priority item) "critical"
  || mem (Item.category item) preserve_categories.

(** [priority_order.get(p, 2)] *)
Definition priority_order (p : string) : Z :=
  if String.eqb p "normal" then 0
  else if String.eqb p "low" then 1
  else 2.

Definition sort_key (x : Item.t) : Z * Q :=
  (priority_order (Item.priority x), Qopp (Item.timestamp x)).

Definition total_tokens (items : list Item.t) : Z :=
  sum (map Item.tokens items).

Section WithEncoder.
Context (enc : Encoder).

Definition _summarize_single (item : Item.t) (max_tokens : Z)
  : option Item.t :=
  let content := Item.content item in
  let truncated :=
    TokenCounter.truncate_to_tokens enc content (max_tokens - 10) in
  let truncated :=
    if negb (String.eqb truncated content)
    then rstrip truncated +:+ "..."
    else truncated in
  Some {| Item.id := Item.id item;
          Item.category := Item.category item;
          Item.subcategory := Item.subcategory item;
          Item.content := truncated;
          Item.priority := Item.priority item;
          Item.tokens := TokenCounter.count enc truncated;
          Item.timestamp := Item.timestamp item;
          Item.compressed := true |}.

(** The loop of [_summarize_items]; returns what it appends to [result]. *)
Fixpoint summarize_loop (budget_per_item : Z) (items : list Item.t)
  : list Item.t :=
  match items with
  | [] => []
  | item :: rest =>
      if Item.tokens item <=? budget_per_item
      then item :: summarize_loop budget_per_item rest
      else match _summarize_single item budget_per_item with
           | Some summarized =>
               summarized :: summarize_loop budget_per_item rest
           | None => summarize_loop budget_per_item rest
           end
  end.

Definition _summarize_items (items : list Item.t) (target_tokens : Z)
  : outcome (list Item.t) :=
  match length items with
  | O => Raise ZeroDivisionError
  | len =>
      let budget_per_item := Z.max 50 (target_tokens / Z.of_nat len) in
      Return (summarize_loop budget_per_item items)
  end.

(** The loop over the sorted compressible items, with the three variables
    it updates: [result], [current_tokens] and [remaining_budget]. *)
Fixpoint compress_loop (target_tokens : Z) (compressible : list Item.t)
  (result : list Item.t) (current_tokens remaining_budget : Z)
  : list Item.t :=
  match compressible with
  | [] => result
  | item :: rest =>
      if current_tokens + Item.tokens item <=? target_tokens then
        compress_loop target_tokens rest (result ++ [item])
          (current_tokens + Item.tokens item) remaining_budget
      else if 100 <? remaining_budget then
        match _summarize_single item (remaining_budget / 2) with
        | Some summarized =>
            let current_tokens := current_tokens + Item.tokens summarized in
            compress_loop target_tokens rest (result ++ [summarized])
              current_tokens (target_tokens - current_tokens)
        | None =>
            compress_loop target_tokens rest result
              current_tokens remaining_budget
        end
      else
        compress_loop target_tokens rest result
          current_tokens remaining_budget
  end.

Definition smart_compress (items : list Item.t) (target_tokens : Z)
  (preserve_categories : option (list string)) : outcome (list Item.t) :=
  let preserve_categories := preserve_or_default preserve_categories in
  let protected := filter (λ item, is_protected preserve_categories item = true) items in
  let compressible := filter (λ item, is_protected preserve_categories item ≠ true) items in
  let protected_tokens := total_tokens protected in
  if target_tokens <=? protected_tokens then
    _summarize_items protected target_tokens
  else
    let remaining_budget := target_tokens - protected_tokens in
    let compressible := sort pair_lt sort_key compressible in
    Return (compress_loop target_tokens compressible protected
              protected_tokens remaining_budget).

End WithEncoder.
End CompressionStrategy.

(** ** memory.py: MemoryStore *)

Module Aggregate.
Record t := mk { count : Z; tokens : Z }.
End Aggregate.

Module MemoryStore.
Import Py.

(** The [_data] dict of a store. *)
Record t := mk {
  version : Z;
  created : Q;
  memories : list Item.t;
  categories : gmap string Aggregate.t;
}.

(** The structure that [initialize] creates at clock reading [now]. *)
Definition initial (now : Q) : t :=
  {| version := 1; created := now; memories := []; categories := ∅ |}.

(** [item["id"] == item_id or item_id in item["content"]] *)
Definition matches (item_id : string) (item : Item.t) : bool :=
  String.eqb (Item.id item) item_id || contains item_id (Item.content item).

(** The search loop of [remove]: the first matching item and the list
    after [pop]. *)
Fixpoint pop_first (item_id : string) (l : list Item.t)
  : option (Item.t * list Item.t) :=
  match l with
  | [] => None
  | item :: rest =>
      if matches item_id item then Some (item, rest)
      else match pop_first item_id rest with
           | Some (removed, rest') => Some (removed, item :: rest')
           | None => None
           end
  end.

Definition remove (self : t) (item_id : string) : option Item.t * t :=
  match pop_first item_id (memories self) with
  | Some (removed, memories') =>
      let cat := Item.category removed in
      let categories' :=
        match categories self !! cat with
        | Some agg =>
            <[cat := {| Aggregate.count := Aggregate.count agg - 1;
                        Aggregate.tokens :=
                          Aggregate.tokens agg - Item.tokens removed |}]>
              (categories self)
        | None => categories self
        end in
      (Some removed,
       {| version := version self; created := created self;
          memories := memories'; categories := categories' |})
  | None => (None, self)
  end.

(** The score that the loop of [get_relevant] gives [item] when
    [time.time()] reads [now]. *)
Definition score (query : string) (now : Q) (item : Item.t) : Z :=
  let query_lower := lower query in
  let query_words : gset string := list_to_set (split query_lower) in
  let score := 0 in
  let content_lower := lower (Item.content item) in
  let category_lower := lower (Item.category item) in
  let score :=
    if contains category_lower query_lower
       || contains query_lower category_lower
    then score + 10 else score in
  let content_words : gset string := list_to_set (split content_lower) in
  let overlap := Z.of_nat (size (query_words ∩ content_words)) in
  let score := score + overlap * 2 in
  let score := if contains query_lower content_lower then score + 5 else score in
  let score :=
    if String.eqb (Item.priority item) "critical" then score + 5
    else if String.eqb (Item.priority item) "low" then score - 2
    else score in
  let age_hours := Qdiv (Qminus now (Item.timestamp item)) (3600 # 1) in
  let score :=
    if Qlt_bool age_hours (24 # 1) then score + 3
    else if Qlt_bool age_hours (168 # 1) then score + 1
    else score in
  score.

(** The scoring loop; [clock k] is what [time.time()] reads in the
    iteration for the item at index [k]. *)
Fixpoint score_loop (query : string) (clock : nat → Q) (k : nat)
  (items : list Item.t) : list (Z * Item.t) :=
  match items with
  | [] => []
  | item :: rest =>
      let s := score query (clock k) item in
      if 0 <? s then (s, item) :: score_loop query clock (S k) rest
      else score_loop query clock (S k) rest
  end.

Definition ranked (self : t) (query : string) (clock : nat → Q)
  : list (Z * Item.t) :=
  sort Z.ltb (λ x : Z * Item.t, - x.1) (score_loop query clock 0 (memories self)).

Definition get_relevant (self : t) (query : string) (max_items : Z)
  (clock : nat → Q) : list Item.t :=
  map snd (slice_to max_items (ranked self query clock)).

(** [get_by_category]: the live items of a category, in storage order. *)
Definition get_by_category (self : t) (category : string) : list Item.t :=
  filter (λ m, Item.category m = category) (memories self).

(** The aggregates agree with the item list, and every live item has an
    aggregate for its category. *)
Definition consistent (self : t) : Prop :=
  (∀ cat agg, categories self !! cat = Some agg →
     Aggregate.count agg = Z.of_nat (length (get_by_category self cat))
     ∧ Aggregate.tokens agg
       = sum (map Item.tokens (get_by_category self cat)))
  ∧ (∀ m, m ∈ memories self → is_Some (categories self !! Item.category m)).

Section WithEncoder.
Context (enc : Encoder).
(** [_generate_id]: the first 12 hex digits of the SHA-256 of the content
    followed by the clock reading. *)
Context (generate_id : string → Q → string).

(** [add]; [t_id] and [t_stamp] are the two readings of [time.time()], the
    first inside [_generate_id], the second for the timestamp. *)
Definition add (self : t) (category content priority : string)
  (t_id t_stamp : Q) : Item.t * t :=
  let '(category, subcategory) :=
    match split_colon category with
    | Some (c, s) => (c, Some s)
    | None => (category, None)
    end in
  let item :=
    {| Item.id := generate_id content t_id;
       Item.category := category;
       Item.subcategory := subcategory;
       Item.content := content;
       Item.priority := priority;
       Item.tokens := TokenCounter.count enc content;
       Item.timestamp := t_stamp;
       Item.compressed := false |} in
  let memories' := memories self ++ [item] in
  let cats :=
    match categories self !! category with
    | None => <[category := {| Aggregate.count := 0; Aggregate.tokens := 0 |}]>
                (categories self)
    | Some _ => categories self
    end in
  let cats :=
    alter (λ a, {| Aggregate.count := Aggregate.count a + 1;
                   Aggregate.tokens := Aggregate.tokens a |}) category cats in
  let cats :=
    alter (λ a, {| Aggregate.count := Aggregate.count a;
                   Aggregate.tokens := Aggregate.tokens a + Item.tokens item |})
      category cats in
  (item,
   {| version := version self; created := created self;
      memories := memories'; categories := cats |}).

(** A call of [add] or [remove], with the clock readings it consumes. *)
Inductive op :=
| Add (category content priority : string) (t_id t_stamp : Q)
| Remove (item_id : string).

Definition step (self : t) (o : op) : t :=
  match o with
  | Add category content priority t_id t_stamp =>
      (add self category content priority t_id t_stamp).2
  | Remove item_id => (remove self item_id).2
  end.

Definition run (ops : list op) (self : t) : t := foldl step self ops.

End WithEncoder.
End MemoryStore.

(** ** The tokenizer over an encoder that can refuse a text *)

(** [tiktoken]'s [encode] raises [ValueError] on some texts (with the
    default arguments, on a text that holds a special token).  Here
    [encode] answers [Ok tokens] or [ValueError], and [count] and
    [truncate_to_tokens], which do not catch it, pass the exception on. *)
Module Fallible.

Inductive result (A : Type) :=
| Ok (a : A)
| ValueError.
Arguments Ok {A} a.
Arguments ValueError {A}.

Record Encoding := {
  token : Type;
  encode : string → result (list token);
  decode : list token → string;
}.

Definition count (e : Encoding) (text : string) : result Z :=
  match text with
  | EmptyString => Ok 0
  | _ =>
      match encode e text with
      | Ok tokens => Ok (Z.of_nat (length tokens))
      | ValueError => ValueError
      end
  end.

Definition truncate_to_tokens (e : Encoding) (text : string) (max_tokens : Z)
  : result string :=
  match encode e text with
  | Ok tokens =>
      if Z.of_nat (length tokens) <=? max_tokens then Ok text
      else Ok (decode e (Py.slice_to max_tokens tokens))
  | ValueError => ValueError
  end.


End Fallible.

(** An encoder that refuses nothing. *)
Definition total_encoding (enc : Encoder) : Fallible.Encoding :=
  {| Fallible.token := token enc;
     Fallible.encode := λ text, Fallible.Ok (encode enc text);
     Fallible.decode := decode enc |}.

(** ** More of Python's strings and lists *)

Module PyMore.

Definition is_upper (c : ascii) : bool :=
  let n := N_of_ascii c in ((65 <=? n) && (n <=? 90))%N.

Definition is_lower (c : ascii) : bool :=
  let n := N_of_ascii c in ((97 <=? n) && (n <=? 122))%N.

Definition upper_char (c : ascii) : ascii :=
  if is_lower c then ascii_of_N (N_of_ascii c - 32) else c.

(** [s.title()]: a letter is upper-cased when the character before it is
    not a letter, and lower-cased otherwise. *)
Fixpoint title_go (previous_is_cased : bool) (s : string) : string :=
  match s with
  | EmptyString => EmptyString
  | String c s' =>
      if is_upper c || is_lower c then
        String (if previous_is_cased then Py.lower_char c else upper_char c)
          (title_go true s')
      else String c (title_go false s')
  end.

Definition title (s : string) : string := title_go false s.

(** [s.lstrip()] and [s.strip()] *)
Fixpoint lstrip (s : string) : string :=
  match s with
  | EmptyString => EmptyString
  | String c s' => if Py.is_space c then lstrip s' else s
  end.

Definition strip (s : string) : string := Py.rstrip (lstrip s).

(** [sep.join(l)] *)
Definition join (sep : string) (l : list string) : string :=
  String.concat sep l.

(** [s[:n]] and [s[n:]] for [n >= 0] *)
Fixpoint str_take (n : nat) (s : string) : string :=
  match n, s with
  | S n', String c s' => String c (str_take n' s')
  | _, _ => EmptyString
  end.

Fixpoint str_drop (n : nat) (s : string) : string :=
  match n, s with
  | S n', String _ s' => str_drop n' s'
  | _, _ => s
  end.


End PyMore.

(** ** tokens.py: the remaining functions *)

Module Pointer.
Record t := mk {
  category : string;
  content : string;
  tokens : Z;
  pointer : bool;
  original_id : option string;
}.
End Pointer.

Module Tokens.

(** [TokenCounter.estimate_from_chars] *)
Definition estimate_from_chars (text : string) : Z :=
  Z.of_nat (String.length text) / 4.

(** [CompressionStrategy.to_pointers] *)
Definition to_pointers (items : list Item.t) : list Pointer.t :=
  map (λ item,
         {| Pointer.category := Item.category item;
            Pointer.content :=
              "[See .vibemem/" +:+ Item.category item +:+ ".md for details]";
            Pointer.tokens := 15;
            Pointer.pointer := true;
            Pointer.original_id := Some (Item.id item) |}) items.

(** Two items with the same origin: a derivative keeps everything of the
    item it stands for except its content, token count and flag. *)
Definition same_origin (a b : Item.t) : Prop :=
  Item.id a = Item.id b
  ∧ Item.category a = Item.category b
  ∧ Item.subcategory a = Item.subcategory b
  ∧ Item.priority a = Item.priority b
  ∧ Item.timestamp a = Item.timestamp b.

End Tokens.

(** ** memory.py: the remaining functions *)

Module Memory.
Import Py.

(** [MemoryStore.list]; a missing category and an empty one both mean no
    filter. *)
Definition list_ (self : MemoryStore.t) (category : option string)
  : list Item.t :=
  let memories :=
    match category with
    | None => MemoryStore.memories self
    | Some EmptyString => MemoryStore.memories self
    | Some c => filter (λ m, Item.category m = c) (MemoryStore.memories self)
    end in
  sort Qlt_bool (λ x, Qopp (Item.timestamp x)) memories.

(** [MemoryStore.total_tokens] *)
Definition total_tokens (self : MemoryStore.t) : Z :=
  sum (map Item.tokens (MemoryStore.memories self)).

(** The categories that [_write_index] lists, each with its aggregate:
    those with a positive count (here in no particular order). *)
Definition index_entries (self : MemoryStore.t) : list (string * Aggregate.t) :=
  filter (λ e : string * Aggregate.t, 0 < Aggregate.count e.2)
    (map_to_list (MemoryStore.categories self)).

(** The [by_category] dict of the renderers, in insertion order. *)
Fixpoint group_add (cat : string) (item : Item.t)
  (by_category : list (string * list Item.t)) : list (string * list Item.t) :=
  match by_category with
  | [] => [(cat, [item])]
  | (k, items) :: rest =>
      if String.eqb k cat then (k, items ++ [item]) :: rest
      else (k, items) :: group_add cat item rest
  end.

Definition group_by_category (items : list Item.t)
  : list (string * list Item.t) :=
  foldl (λ by_category item, group_add (Item.category item) item by_category)
    [] items.

(** [by_category[category]] for a key of the dict *)
Fixpoint group_get (category : string)
  (by_category : list (string * list Item.t)) : list Item.t :=
  match by_category with
  | [] => []
  | (k, items) :: rest =>
      if String.eqb k category then items else group_get category rest
  end.

(** The lines that [to_markdown] joins. *)
Definition markdown_lines (items : list Item.t) (include_metadata : bool)
  : list string :=
  let by_category := group_by_category items in
  flat_map
    (λ category,
       ("## " +:+ PyMore.title category)
       :: map (λ item,
                 if include_metadata
                 then "- [" +:+ Item.priority item +:+ "] " +:+ Item.content item
                 else "- " +:+ Item.content item)
            (group_get category by_category)
       ++ [""])
    (sort String.ltb (λ k : string, k) (map fst by_category)).

(** [MemoryStore.to_markdown]; [items or self._data["memories"]]: a
    missing list and an empty one both mean the whole store. *)
Definition to_markdown (self : MemoryStore.t) (items : option (list Item.t))
  (include_metadata : bool) : string :=
  let items :=
    match items with
    | None => MemoryStore.memories self
    | Some [] => MemoryStore.memories self
    | Some l => l
    end in
  PyMore.join (String "010" "") (markdown_lines items include_metadata).

(** The lines of the hot file that [_write_hot_file] writes for the hot
    items. *)
Definition hot_lines (hot_items : list Item.t) : list string :=
  let by_category := group_by_category hot_items in
  ["# vibemem - Project Memory"; ""]
  ++ flat_map
       (λ category,
          ("## " +:+ PyMore.title category)
          :: map (λ item,
                    (if String.eqb (Item.priority item) "critical"
                     then "**[!]** " else "- ") +:+ Item.content item)
               (group_get category by_category)
          ++ [""])
       (sort String.ltb (λ k : string, k) (map fst by_category)).

End Memory.

(** ** config.py *)

Module Config.

(** The values of a configuration: what YAML gives, dicts apart from the
    rest.  A dict is the list of its entries in insertion order. *)
#[local] Set Warnings "-register-all".
Inductive value :=
| VNone
| VBool (b : bool)
| VInt (z : Z)
| VFloat (q : Q)
| VStr (s : string)
| VList (l : list value)
| VDict (d : list (string * value)).

Definition dict := list (string * value).

(** [d.get(key)] *)
Fixpoint dict_get (key : string) (d : dict) : option value :=
  match d with
  | [] => None
  | (k, v) :: rest => if String.eqb k key then Some v else dict_get key rest
  end.

(** [d[key] = v]: in place for a key of the dict, at the end otherwise. *)
Fixpoint dict_set (key : string) (v : value) (d : dict) : dict :=
  match d with
  | [] => [(key, v)]
  | (k, v') :: rest =>
      if String.eqb k key then (k, v) :: rest
      else (k, v') :: dict_set key v rest
  end.

(** What one iteration of the loop of [_deep_merge] stores under a key:
    the merge of the two dicts when the key holds a dict on both sides,
    the overriding value otherwise. *)
Fixpoint merge_value (existing : option value) (v : value) : value :=
  match v with
  | VDict vd =>
      match existing with
      | Some (VDict rd) =>
          VDict (fold_left
                   (λ result kv,
                      dict_set kv.1 (merge_value (dict_get kv.1 result) kv.2)
                        result)
                   vd rd)
      | _ => v
      end
  | _ => v
  end.

Definition _deep_merge (base override : dict) : dict :=
  fold_left
    (λ result kv,
       dict_set kv.1 (merge_value (dict_get kv.1 result) kv.2) result)
    override base.

Definition DEFAULT_CONFIG : dict :=
  [("version", VInt 1);
   ("token_budgets",
    VDict [("claude-code", VInt 10000); ("cursor", VInt 6000);
           ("copilot", VInt 3000); ("aider", VInt 4000);
           ("windsurf", VInt 5000); ("cline", VInt 5000);
           ("continue", VInt 4000); ("zed", VInt 4000);
           ("default", VInt 4000)]);
   ("compression",
    VDict [("strategy", VStr "smart");
           ("preserve_categories",
            VList [VStr "critical"; VStr "error"; VStr "arch"]);
           ("summarize_threshold", VFloat (8 # 10))]);
   ("sync",
    VDict [("auto_detect_tools", VBool true); ("include_global", VBool true);
           ("include_errors", VBool true); ("max_errors", VInt 10)]);
   ("extraction",
    VDict [("model", VStr "claude-haiku"); ("auto_categorize", VBool true)])].

(** [Config.load], given what [yaml.safe_load(f) or {}] read from the
    global and the project file ([None] for a file that does not exist). *)
Definition load (global_cfg project_cfg : option dict) : dict :=
  let config := DEFAULT_CONFIG in
  let config :=
    match global_cfg with
    | Some g => _deep_merge config g
    | None => config
    end in
  match project_cfg with
  | Some p => _deep_merge config p
  | None => config
  end.

(** The property [token_budgets]. *)
Definition token_budgets (data : dict) : value :=
  match dict_get "token_budgets" data with
  | Some v => v
  | None => VDict [("claude-code", VInt 10000); ("cursor", VInt 6000);
                   ("copilot", VInt 3000); ("aider", VInt 4000);
                   ("windsurf", VInt 5000); ("cline", VInt 5000);
                   ("continue", VInt 4000); ("zed", VInt 4000);
                   ("default", VInt 4000)]
  end.

(** [get_budget]; [None] stands for the [AttributeError] of calling [get]
    on a [token_budgets] that is not a dict. *)
Definition get_budget (data : dict) (tool : string) : option value :=
  match token_budgets data with
  | VDict budgets =>
      let fallback :=
        match dict_get "default" budgets with
        | Some v => v
        | None => VInt 4000
        end in
      Some match dict_get tool budgets with
           | Some v => v
           | None => fallback
           end
  | _ => None
  end.

End Config.

(** ** extractor.py *)

Module Extracted.
Record t := mk {
  category : string;
  content : string;
  priority : string;
  source : string;
}.
End Extracted.

Module Extractor.

Definition CATEGORY_KEYWORDS : list (string * list string) :=
  [("arch", ["architecture"; "structure"; "design"; "pattern"; "flow"; "system"]);
   ("api", ["api"; "endpoint"; "port"; "url"; "route"; "request"; "response"]);
   ("gotcha", ["gotcha"; "watch out"; "careful"; "note"; "warning"; "caveat"; "bug"]);
   ("error", ["error"; "mistake"; "wrong"; "incorrect"; "don't"; "never"; "avoid"]);
   ("cred", ["credential"; "password"; "api key"; "token"; "secret"; "auth"]);
   ("style", ["style"; "format"; "convention"; "naming"; "prefer"; "always use"]);
   ("platform", ["hackerone"; "bugcrowd"; "github"; "gitlab"; "jira"])].

(** The two nested loops of [_categorize] over a table of keywords. *)
Fixpoint categorize_in (table : list (string * list string))
  (text_lower : string) : string :=
  match table with
  | [] => "gotcha"
  | (category, keywords) :: rest =>
      if existsb (λ keyword, Py.contains keyword text_lower) keywords
      then category
      else categorize_in rest text_lower
  end.

Definition _categorize (text : string) : string :=
  categorize_in CATEGORY_KEYWORDS (Py.lower text).

(** The key under which [extract_memories] remembers a memory. *)
Definition dedup_key (mem : Extracted.t) : string :=
  PyMore.strip (Py.lower (Extracted.content mem)).

(** The deduplication loop of [extract_memories]; returns [unique]. *)
Fixpoint dedup_loop (seen : gset string) (memories : list Extracted.t)
  : list Extracted.t :=
  match memories with
  | [] => []
  | mem :: rest =>
      let key := dedup_key mem in
      if decide (key ∈ seen) then dedup_loop seen rest
      else mem :: dedup_loop ({[key]} ∪ seen) rest
  end.

(** [extract_memories] after the file is read: [pattern_memories] is what
    [_extract_with_patterns] found, [llm_memories] what [_extract_with_llm]
    returned ([None] when it is not called or raises). *)
Definition extract_memories (pattern_memories : list Extracted.t)
  (llm_memories : option (list Extracted.t)) : list Extracted.t :=
  let memories :=
    pattern_memories
    ++ match llm_memories with Some l => l | None => [] end in
  dedup_loop ∅ memories.


(** The roles of the pattern of [_clean_text]. *)
Definition ROLES : list string := ["human"; "assistant"; "user"; "ai"].

(** The substitution of [_clean_text]: a role in brackets at the start of
    the text, in any case, followed by a colon, is removed with the
    whitespace after it. *)
Definition strip_role (text : string) : string :=
  match find (λ role, String.prefix ("[" +:+ role +:+ "]:") (Py.lower text))
          ROLES with
  | Some role =>
      PyMore.lstrip
        (PyMore.str_drop (String.length ("[" +:+ role +:+ "]:")) text)
  | None => text
  end.

Definition _clean_text (text : string) : string :=
  let text := strip_role text in
  let text := PyMore.join " " (Py.split text) in
  match text with
  | EmptyString => text
  | String c rest => String (PyMore.upper_char c) rest
  end.

(** A text without whitespace. *)
Fixpoint nospace (s : string) : bool :=
  match s with
  | EmptyString => true
  | String c s' => negb (Py.is_space c) && nospace s'
  end.

End Extractor.

(** ** Sample data *)

Module Examples.

(** [the_the n] is the word [the] written [n + 1] times, blank-separated. *)
Fixpoint the_the (n : nat) : string :=
  match n with
  | O => "the"
  | S n' => "the " +:+ the_the n'
  end.

(** Two compressible items: 150 and 120 tokens, the first more recent. *)
Definition item_a : Item.t :=
  Item.mk "a00000000001" "style" None (the_the 149) "normal" 150 (2 # 1) false.

Definition item_b : Item.t :=
  Item.mk "b00000000002" "notes" None (the_the 119) "normal" 120 (1 # 1) false.

(** The items of the scenarios of the specification. *)
Definition item_arch : Item.t :=
  Item.mk "c00000000003" "arch" None "API uses port 8002" "critical" 500
    (0 # 1) false.

Definition item_api : Item.t :=
  Item.mk "d00000000004" "api" None "runs on port 8002" "normal" 17 (0 # 1) false.

Definition item_style : Item.t :=
  Item.mk "e00000000005" "style" None "use tabs" "low" 8 (0 # 1) false.

(** A store holding [item_api] and [item_style]. *)
Definition store : MemoryStore.t :=
  {| MemoryStore.version := 1;
     MemoryStore.created := 0 # 1;
     MemoryStore.memories := [item_api; item_style];
     MemoryStore.categories :=
       <["api" := Aggregate.mk 1 17]> (<["style" := Aggregate.mk 1 8]> ∅) |}.

(** A clock that reads 100 seconds at every call. *)
Definition clock (k : nat) : Q := 100 # 1.

(** A stand-in for [_generate_id]. *)
Definition generate_id (content : string) (now : Q) : string :=
  "id:" +:+ content.

Definition ops : list MemoryStore.op :=
  [MemoryStore.Add "arch:api" "API uses port 8002" "critical" (1 # 1) (1 # 1);
   MemoryStore.Add "style" "prefer snake_case" "normal" (2 # 1) (2 # 1);
   MemoryStore.Add "arch" "one process per tenant" "normal" (3 # 1) (3 # 1);
   MemoryStore.Remove "snake"].

End Examples.

(** * Properties *)

(** ** Tokenizer *)

Section TokenCounterFacts.
Context (enc : Encoder).

Lemma count_nonneg (text : string) : 0 ≤ TokenCounter.count enc text.
Proof. destruct text; simpl; lia. Qed.

Lemma count_le_encode (text : string) :
  TokenCounter.count enc text ≤ Z.of_nat (length (encode enc text)).
Proof. destruct text; simpl; lia. Qed.

Lemma slice_to_nonneg {A} (n : Z) (l : list A) :
  0 ≤ n → Py.slice_to n l = take (Z.to_nat n) l.
Proof. intros Hn. unfold Py.slice_to. destruct (Z.leb_spec 0 n); [done | lia]. Qed.

Lemma slice_to_length {A} (n : Z) (l : list A) :
  0 ≤ n → Z.of_nat (length (Py.slice_to n l)) ≤ n.
Proof. intros Hn. rewrite slice_to_nonneg, length_take by done. lia. Qed.


End TokenCounterFacts.

Section FallibleFacts.
Context (e : Fallible.Encoding).


Lemma fallible_refused (text : string) (max_tokens : Z) :
  Fallible.encode e text = Fallible.ValueError →
  text ≠ "" →
  Fallible.count e text = Fallible.ValueError
  ∧ Fallible.truncate_to_tokens e text max_tokens = Fallible.ValueError.
Proof.
  intros H Hne. unfold Fallible.count, Fallible.truncate_to_tokens. rewrite H.
  by destruct text.
Qed.

End FallibleFacts.

(** With an encoder that refuses nothing, the tokenizer is the one of the
    rest of this development. *)
Lemma fallible_total (enc : Encoder) (text : string) (max_tokens : Z) :
  Fallible.count (total_encoding enc) text
  = Fallible.Ok (TokenCounter.count enc text)
  ∧ Fallible.truncate_to_tokens (total_encoding enc) text max_tokens
    = Fallible.Ok (TokenCounter.truncate_to_tokens enc text max_tokens).
Proof.
  split.
  - by destruct text.
  - unfold Fallible.truncate_to_tokens, TokenCounter.truncate_to_tokens.
    cbn. by destruct (_ <=? _).
Qed.




(** ** Budget compressor *)

Section CompressionFacts.
Context (enc : Encoder).
Import CompressionStrategy.

Lemma summarize_single_some (item : Item.t) (max_tokens : Z) :
  ∃ d, _summarize_single enc item max_tokens = Some d
       ∧ Item.compressed d = true.
Proof. unfold _summarize_single. eexists. split; [reflexivity | done]. Qed.





Lemma summarize_items_returns (items : list Item.t) (target : Z) :
  items ≠ [] →
  _summarize_items enc items target
  = Py.Return (summarize_loop enc
                 (Z.max 50 (target / Z.of_nat (length items))) items).
Proof. intros Hne. unfold _summarize_items. by destruct items. Qed.

End CompressionFacts.

(** C2 (the code departs from it).  With no protected item and a target
    of zero, [protected_tokens >= target_tokens] holds and
    [_summarize_items] divides by the length of an empty list:
    [smart_compress] raises [ZeroDivisionError], whatever the encoder and
    the preserve list. *)
Theorem smart_compress_empty_raises (enc : Encoder)
  (preserve_categories : option (list string)) :
  CompressionStrategy.smart_compress enc [] 0 preserve_categories
  = Py.Raise Py.ZeroDivisionError.
Proof. reflexivity. Qed.



(** ** Store *)

Section StringFacts.

Lemma prefix_empty (s : string) : String.prefix "" s = true.
Proof. by destruct s. Qed.

Lemma contains_empty (s : string) : Py.contains "" s = true.
Proof. destruct s; reflexivity. Qed.

Lemma prefix_app (n r : string) : String.prefix n (n +:+ r) = true.
Proof.
  induction n as [| c n IH]; simpl.
  - apply prefix_empty.
  - destruct (ascii_dec c c); [done | congruence].
Qed.

Lemma prefix_inv (n h : string) :
  String.prefix n h = true → ∃ r, h = n +:+ r.
Proof.
  revert h. induction n as [| c n IH]; intros h H.
  - by exists h.
  - destruct h as [| c' h]; simpl in H; [done |].
    destruct (ascii_dec c c') as [<- |]; [| done].
    destruct (IH _ H) as [r ->]. by exists r.
Qed.

(** [contains] decides the substring relation. *)
Lemma contains_spec (n h : string) :
  Py.contains n h = true ↔ ∃ l r, h = l +:+ n +:+ r.
Proof.
  split.
  - induction h as [| c h IH]; cbn [Py.contains]; intros H.
    + rewrite orb_false_r in H. destruct (prefix_inv _ _ H) as [r ->].
      by exists "", r.
    + apply orb_true_iff in H as [H | H].
      * destruct (prefix_inv _ _ H) as [r ->]. by exists "", r.
      * destruct (IH H) as (l & r & ->). by exists (String c l), r.
  - intros (l & r & ->). induction l as [| c l IH].
    + change ("" +:+ n +:+ r) with (n +:+ r).
      destruct (n +:+ r) eqn:E; cbn [Py.contains];
        rewrite <- E, prefix_app; done.
    + change (String c l +:+ n +:+ r) with (String c (l +:+ n +:+ r)).
      cbn [Py.contains]. rewrite IH. apply orb_true_r.
Qed.

End StringFacts.

Section StoreFacts.
Import MemoryStore.

Lemma sum_app (l1 l2 : list Z) : Py.sum (l1 ++ l2) = Py.sum l1 + Py.sum l2.
Proof. induction l1 as [| x l1 IH]; simpl; [done |]. unfold Py.sum in *. simpl. lia. Qed.

Lemma sum_cons (x : Z) (l : list Z) : Py.sum (x :: l) = x + Py.sum l.
Proof. reflexivity. Qed.

Lemma sum_nil : Py.sum [] = 0.
Proof. reflexivity. Qed.

(** [pop_first] finds the first match: what precedes it does not match,
    and the list is the same without it. *)
Lemma pop_first_some (item_id : string) (l : list Item.t) removed l' :
  pop_first item_id l = Some (removed, l') →
  ∃ before after,
    l = before ++ removed :: after
    ∧ l' = before ++ after
    ∧ Forall (λ x, matches item_id x = false) before
    ∧ matches item_id removed = true.
Proof.
  revert removed l'. induction l as [| x l IH]; intros removed l' H; simpl in H.
  - done.
  - destruct (matches item_id x) eqn:Hm.
    + injection H as <- <-. by exists [], l.
    + destruct (pop_first item_id l) as [[r rest'] |] eqn:Hp; [| done].
      injection H as <- <-.
      destruct (IH _ _ eq_refl) as (before & after & -> & -> & Hb & Hr).
      exists (x :: before), after. repeat split; [| done].
      by constructor.
Qed.

Lemma pop_first_none (item_id : string) (l : list Item.t) :
  pop_first item_id l = None →
  Forall (λ x, matches item_id x = false) l.
Proof.
  induction l as [| x l IH]; intros H; simpl in H; [constructor |].
  destruct (matches item_id x) eqn:Hm; [done |].
  destruct (pop_first item_id l) as [[r rest'] |]; [done |].
  constructor; auto.
Qed.

(** [matches] decides: the id is the argument, or the content holds it. *)
Lemma matches_true (item_id : string) (x : Item.t) :
  matches item_id x = true
  ↔ Item.id x = item_id ∨ ∃ l r, Item.content x = l +:+ item_id +:+ r.
Proof.
  unfold matches. rewrite orb_true_iff, String.eqb_eq, contains_spec. done.
Qed.

Lemma matches_false (item_id : string) (x : Item.t) :
  matches item_id x = false
  ↔ Item.id x ≠ item_id ∧ ¬ ∃ l r, Item.content x = l +:+ item_id +:+ r.
Proof.
  rewrite <- not_true_iff_false, matches_true. tauto.
Qed.

End StoreFacts.

(** C7. [remove] is total and does one of two things.  Either some
    item has the argument as its id or holds it in its content: then the
    first such item in storage order (no item before it has that id or
    holds the argument) is returned and deleted from the list, and the
    aggregate of its category, when there is one, loses 1 from [count]
    and the item's tokens from [tokens].  Or no item has the argument as
    its id or in its content: then [None] is returned and the store is
    unchanged. *)
Theorem remove_first_match (self : MemoryStore.t) (item_id : string) :
  (∃ before removed after,
     MemoryStore.memories self = before ++ removed :: after
     ∧ Forall (λ x, Item.id x ≠ item_id
                    ∧ ¬ ∃ l r, Item.content x = l +:+ item_id +:+ r) before
     ∧ (Item.id removed = item_id
        ∨ ∃ l r, Item.content removed = l +:+ item_id +:+ r)
     ∧ MemoryStore.remove self item_id
       = (Some removed,
          {| MemoryStore.version := MemoryStore.version self;
             MemoryStore.created := MemoryStore.created self;
             MemoryStore.memories := before ++ after;
             MemoryStore.categories :=
               match MemoryStore.categories self !! Item.category removed with
               | Some agg =>
                   <[Item.category removed :=
                       {| Aggregate.count := Aggregate.count agg - 1;
                          Aggregate.tokens :=
                            Aggregate.tokens agg - Item.tokens removed |}]>
                     (MemoryStore.categories self)
               | None => MemoryStore.categories self
               end |}))
  ∨ (Forall (λ x, Item.id x ≠ item_id
                  ∧ ¬ ∃ l r, Item.content x = l +:+ item_id +:+ r)
       (MemoryStore.memories self)
     ∧ MemoryStore.remove self item_id = (None, self)).
Proof.
  unfold MemoryStore.remove.
  destruct (MemoryStore.pop_first item_id (MemoryStore.memories self))
    as [[removed l'] |] eqn:Hp.
  - left. destruct (pop_first_some _ _ _ _ Hp) as (before & after & Hl & -> & Hb & Hm).
    exists before, removed, after.
    split; [done |]. split; [| split; [| done]].
    + eapply Forall_impl; [exact Hb |]. intros x Hx. by apply matches_false.
    + by apply matches_true.
  - right. split; [| done].
    eapply Forall_impl; [by apply pop_first_none |].
    intros x Hx. by apply matches_false.
Qed.

(** C10. On a store with at least one item, [remove("")] returns the first
    item in storage order and deletes it (the empty string is a substring
    of every content), updating the aggregate of its category; it never
    answers [None]. *)
Theorem remove_empty_string_takes_first (self : MemoryStore.t)
  (first : Item.t) (rest : list Item.t) :
  MemoryStore.memories self = first :: rest →
  MemoryStore.remove self ""
  = (Some first,
     {| MemoryStore.version := MemoryStore.version self;
        MemoryStore.created := MemoryStore.created self;
        MemoryStore.memories := rest;
        MemoryStore.categories :=
          match MemoryStore.categories self !! Item.category first with
          | Some agg =>
              <[Item.category first :=
                  {| Aggregate.count := Aggregate.count agg - 1;
                     Aggregate.tokens :=
                       Aggregate.tokens agg - Item.tokens first |}]>
                (MemoryStore.categories self)
          | None => MemoryStore.categories self
          end |}).
Proof.
  intros Hm. unfold MemoryStore.remove. rewrite Hm. simpl.
  unfold MemoryStore.matches. rewrite contains_empty, orb_true_r. reflexivity.
Qed.

Section AggregateInvariant.
Context (enc : Encoder) (generate_id : string → Q → string).
Import MemoryStore.

(** What the three updates of [add] leave in the [categories] dict. *)
Lemma add_categories_lookup (cats : gmap string Aggregate.t) (c : string)
  (tk : Z) (cat : string) :
  alter (λ a, {| Aggregate.count := Aggregate.count a;
                 Aggregate.tokens := Aggregate.tokens a + tk |}) c
    (alter (λ a, {| Aggregate.count := Aggregate.count a + 1;
                    Aggregate.tokens := Aggregate.tokens a |}) c
       match cats !! c with
       | None => <[c := {| Aggregate.count := 0; Aggregate.tokens := 0 |}]> cats
       | Some _ => cats
       end) !! cat
  = if decide (c = cat) then
      match cats !! c with
      | Some a => Some {| Aggregate.count := Aggregate.count a + 1;
                          Aggregate.tokens := Aggregate.tokens a + tk |}
      | None => Some {| Aggregate.count := 0 + 1; Aggregate.tokens := 0 + tk |}
      end
    else cats !! cat.
Proof.
  destruct (decide (c = cat)) as [<- | Hne].
  - rewrite !lookup_alter_eq. destruct (cats !! c) as [a |] eqn:E.
    + by rewrite E.
    + by rewrite lookup_insert_eq.
  - rewrite !lookup_alter_ne by done. destruct (cats !! c) eqn:E; [done |].
    by rewrite lookup_insert_ne.
Qed.

Lemma consistent_initial (now : Q) : consistent (initial now).
Proof.
  split.
  - intros cat agg H. simpl in H. by rewrite lookup_empty in H.
  - intros m H. simpl in H. by apply elem_of_nil in H.
Qed.

(** Appending an item of category [c] with [tk] tokens and bumping the
    aggregate of [c] keeps the store consistent. *)
Lemma consistent_append (self : t) (item : Item.t) (cats' : gmap string Aggregate.t) :
  consistent self →
  (∀ cat, cats' !! cat
     = if decide (Item.category item = cat) then
         match categories self !! Item.category item with
         | Some a => Some {| Aggregate.count := Aggregate.count a + 1;
                             Aggregate.tokens := Aggregate.tokens a + Item.tokens item |}
         | None => Some {| Aggregate.count := 0 + 1;
                           Aggregate.tokens := 0 + Item.tokens item |}
         end
       else categories self !! cat) →
  consistent {| version := version self; created := created self;
                memories := memories self ++ [item]; categories := cats' |}.
Proof.
  intros [Hagg Hdom] Hcats. split.
  - intros cat agg. unfold get_by_category. cbn [memories categories].
    rewrite Hcats, filter_app, length_app, map_app, sum_app.
    destruct (decide (Item.category item = cat)) as [Hc | Hc].
    + rewrite (filter_cons_True _ item []) by done. rewrite filter_nil.
      destruct (categories self !! Item.category item) as [a |] eqn:E.
      * intros [= <-]. rewrite Hc in E.
        destruct (Hagg _ _ E) as [H1 H2]. unfold get_by_category in H1, H2.
        cbn [map length Aggregate.count Aggregate.tokens].
        rewrite H1, H2, sum_cons, sum_nil. cbn [length]. lia.
      * intros [= <-].
        assert (Hnone : filter (λ m, Item.category m = cat) (memories self) = []).
        { destruct (filter _ (memories self)) as [| m l] eqn:Ef; [done |].
          assert (Hm : m ∈ filter (λ m, Item.category m = cat) (memories self))
            by (rewrite Ef; apply elem_of_cons; by left).
          apply list_elem_of_filter in Hm as [Hmc Hm].
          destruct (Hdom m Hm) as [a Ha]. congruence. }
        rewrite Hnone. cbn [map length Aggregate.count Aggregate.tokens].
        rewrite sum_cons, !sum_nil. cbn [length]. lia.
    + rewrite (filter_cons_False _ item []) by done. rewrite filter_nil.
      intros E. destruct (Hagg _ _ E) as [H1 H2]. unfold get_by_category in H1, H2.
      rewrite H1, H2. cbn [map length]. rewrite sum_nil. lia.
  - intros m. cbn [memories categories]. rewrite elem_of_app, Hcats.
    intros [Hm | Hm].
    + destruct (decide (Item.category item = Item.category m)).
      * destruct (categories self !! Item.category item); eauto.
      * by apply Hdom.
    + apply list_elem_of_singleton in Hm as ->.
      rewrite decide_True by done.
      destruct (categories self !! Item.category item); eauto.
Qed.

Lemma add_consistent (self : t) (category content priority : string)
  (t_id t_stamp : Q) :
  consistent self →
  consistent (add enc generate_id self category content priority t_id t_stamp).2.
Proof.
  intros H. unfold add.
  destruct (match Py.split_colon category with
            | Some (c, s) => (c, Some s)
            | None => (category, None)
            end) as [c sub].
  cbn [snd]. apply consistent_append; [done |].
  intros cat. cbn [Item.category Item.tokens]. apply add_categories_lookup.
Qed.

Lemma remove_consistent (self : t) (item_id : string) :
  consistent self → consistent (remove self item_id).2.
Proof.
  intros [Hagg Hdom]. unfold remove.
  destruct (pop_first item_id (memories self)) as [[removed l'] |] eqn:Hp;
    [| by split].
  destruct (pop_first_some _ _ _ _ Hp) as (before & after & Hl & -> & _ & _).
  cbn [snd]. split.
  - intros cat agg. unfold get_by_category. cbn [memories categories].
    rewrite filter_app, length_app, map_app, sum_app.
    assert (Hold : ∀ a, categories self !! cat = Some a →
      Aggregate.count a
      = Z.of_nat (length (filter (λ m, Item.category m = cat) before)
                  + length (filter (λ m, Item.category m = cat) (removed :: after)))
      ∧ Aggregate.tokens a
        = Py.sum (map Item.tokens (filter (λ m, Item.category m = cat) before))
          + Py.sum (map Item.tokens
                      (filter (λ m, Item.category m = cat) (removed :: after)))).
    { intros a Ha. destruct (Hagg _ _ Ha) as [H1 H2].
      unfold get_by_category in H1, H2. rewrite Hl in H1, H2.
      rewrite filter_app in H1, H2. rewrite length_app in H1.
      rewrite map_app, sum_app in H2. done. }
    destruct (categories self !! Item.category removed) as [a |] eqn:E.
    + destruct (decide (Item.category removed = cat)) as [Hc | Hc].
      * rewrite <- Hc at 1. rewrite lookup_insert_eq. intros [= <-].
        rewrite Hc in E. destruct (Hold _ E) as [H1 H2].
        rewrite (filter_cons_True _ removed after) in H1, H2 by done.
        cbn [map length] in H1, H2. rewrite sum_cons in H2.
        cbn [Aggregate.count Aggregate.tokens]. lia.
      * rewrite lookup_insert_ne by done. intros Ha.
        destruct (Hold _ Ha) as [H1 H2].
        rewrite (filter_cons_False _ removed after) in H1, H2 by done. lia.
    + intros Ha. destruct (Hold _ Ha) as [H1 H2].
      assert (Hc : Item.category removed ≠ cat) by congruence.
      rewrite (filter_cons_False _ removed after) in H1, H2 by done. lia.
  - intros m. cbn [memories categories]. intros Hm.
    assert (Hm' : m ∈ memories self).
    { rewrite Hl. apply elem_of_app in Hm as [Hm | Hm]; apply elem_of_app;
        [by left | right; apply elem_of_cons; by right]. }
    specialize (Hdom m Hm').
    destruct (categories self !! Item.category removed) as [a |] eqn:E; [| done].
    apply lookup_insert_is_Some'. by right.
Qed.

Lemma run_consistent (ops : list (op)) (self : t) :
  consistent self → consistent (run enc generate_id ops self).
Proof.
  revert self. induction ops as [| o ops IH]; intros self H; [done |].
  cbn. apply IH. destruct o; cbn [step].
  - by apply add_consistent.
  - by apply remove_consistent.
Qed.

End AggregateInvariant.

(** C4. After any sequence of [add] and [remove] calls on the store that
    [initialize] creates, every category in the [categories] dict has a
    [count] equal to the number of live items of the category and a
    [tokens] equal to the sum of their token counts. *)
Theorem aggregates_match_items (enc : Encoder)
  (generate_id : string → Q → string) (now : Q)
  (ops : list MemoryStore.op) (cat : string) (agg : Aggregate.t) :
  MemoryStore.categories
    (MemoryStore.run enc generate_id ops (MemoryStore.initial now)) !! cat
  = Some agg →
  let live :=
    filter (λ m, Item.category m = cat)
      (MemoryStore.memories
         (MemoryStore.run enc generate_id ops (MemoryStore.initial now))) in
  Aggregate.count agg = Z.of_nat (length live)
  ∧ Aggregate.tokens agg = Py.sum (map Item.tokens live).
Proof.
  intros H.
  destruct (run_consistent enc generate_id ops _ (consistent_initial now)) as [Hagg _].
  exact (Hagg _ _ H).
Qed.

(** ** Relevance scorer *)

Section SortFacts.
Context {A : Type} (key : A → Z).

Lemma insert_perm (x : A) (l : list A) : Py.insert Z.ltb key x l ≡ₚ x :: l.
Proof.
  induction l as [| y l IH]; cbn [Py.insert]; [done |].
  destruct (key y <? key x); [| done].
  rewrite IH. apply Permutation_swap.
Qed.

Lemma sort_perm (l : list A) : Py.sort Z.ltb key l ≡ₚ l.
Proof.
  induction l as [| x l IH]; [done |].
  unfold Py.sort in *. cbn [foldr]. rewrite insert_perm. by rewrite IH.
Qed.

Lemma insert_sorted (x : A) (l : list A) :
  StronglySorted (λ a b, key a ≤ key b) l →
  StronglySorted (λ a b, key a ≤ key b) (Py.insert Z.ltb key x l).
Proof.
  induction 1 as [| y l Hl IH Hy]; cbn [Py.insert].
  - repeat constructor.
  - destruct (Z.ltb_spec (key y) (key x)) as [Hlt | Hge].
    + constructor; [done |].
      rewrite insert_perm. constructor; [lia | done].
    + constructor; [by constructor |].
      constructor; [done |].
      eapply Forall_impl; [exact Hy |]. intros z Hz. cbn in Hz |- *. lia.
Qed.

Lemma sort_sorted (l : list A) :
  StronglySorted (λ a b, key a ≤ key b) (Py.sort Z.ltb key l).
Proof.
  induction l as [| x l IH]; [constructor |].
  unfold Py.sort in *. cbn [foldr]. by apply insert_sorted.
Qed.

Lemma sorted_weaken (R R' : A → A → Prop) (l : list A) :
  (∀ a b, R a b → R' a b) → StronglySorted R l → StronglySorted R' l.
Proof.
  intros HR. induction 1 as [| x l Hl IH Hx]; constructor; [done |].
  eapply Forall_impl; [exact Hx | auto].
Qed.

(** Stability: the elements of one key keep their order. *)
Lemma insert_filter_key (k : Z) (x : A) (l : list A) :
  filter (λ a, key a = k) (Py.insert Z.ltb key x l)
  = filter (λ a, key a = k) (x :: l).
Proof.
  induction l as [| y l IH]; cbn [Py.insert]; [done |].
  destruct (Z.ltb_spec (key y) (key x)) as [Hlt | Hge]; [| done].
  rewrite (filter_cons _ y), IH, !(filter_cons _ x), (filter_cons _ y).
  destruct (decide (key y = k)), (decide (key x = k)); try done; lia.
Qed.

Lemma sort_filter_key (k : Z) (l : list A) :
  filter (λ a, key a = k) (Py.sort Z.ltb key l) = filter (λ a, key a = k) l.
Proof.
  induction l as [| x l IH]; [done |].
  unfold Py.sort in *. cbn [foldr].
  rewrite insert_filter_key, !(filter_cons _ x), IH. done.
Qed.

End SortFacts.

Section ScorerFacts.
Import MemoryStore.

(** The scoring loop keeps, in storage order, the items with a positive
    score, each with the score it got at its own clock reading. *)
Lemma score_loop_filter (query : string) (clock : nat → Q) (k : nat)
  (items : list Item.t) :
  score_loop query clock k items
  = filter (λ p : Z * Item.t, 0 < p.1)
      (imap (λ i item, (score query (clock (k + i)%nat) item, item)) items).
Proof.
  revert k. induction items as [| item rest IH]; intros k; [done |].
  cbn [score_loop imap]. rewrite filter_cons. cbn [fst].
  replace (k + 0)%nat with k by lia.
  rewrite IH.
  assert (Hext : imap (λ i item0, (score query (clock (S k + i)%nat) item0, item0)) rest
                 = imap ((λ i item0, (score query (clock (k + i)%nat) item0, item0)) ∘ S) rest).
  { apply imap_ext. intros i x _. cbn. by replace (k + S i)%nat with (S (k + i)) by lia. }
  rewrite Hext.
  destruct (Z.ltb_spec 0 (score query (clock k) item)).
  - by rewrite decide_True.
  - by rewrite decide_False by lia.
Qed.

End ScorerFacts.

(** C5. With [0 <= max_items], [get_relevant] returns the items of the
    first [max_items] entries of the ranking, where: the entries ranked
    are exactly the stored items whose score is positive (an item with a
    score of 0 or less is not ranked at all); the ranking is a
    rearrangement of them in which scores never increase from one entry
    to the next; entries of equal score are in storage order; and the
    result has at most [max_items] items. *)
Theorem get_relevant_ranking (self : MemoryStore.t) (query : string)
  (max_items : Z) (clock : nat → Q) :
  0 ≤ max_items →
  let scored :=
    filter (λ p : Z * Item.t, 0 < p.1)
      (imap (λ k item, (MemoryStore.score query (clock k) item, item))
         (MemoryStore.memories self)) in
  let ranking := MemoryStore.ranked self query clock in
  MemoryStore.get_relevant self query max_items clock
  = map snd (take (Z.to_nat max_items) ranking)
  ∧ ranking ≡ₚ scored
  ∧ Forall (λ p : Z * Item.t, 0 < p.1) ranking
  ∧ StronglySorted (λ p q : Z * Item.t, q.1 ≤ p.1) ranking
  ∧ (∀ s, filter (λ p : Z * Item.t, p.1 = s) ranking
          = filter (λ p : Z * Item.t, p.1 = s) scored)
  ∧ Z.of_nat (length (MemoryStore.get_relevant self query max_items clock))
    ≤ max_items.
Proof.
  intros Hmax scored ranking.
  assert (Hscored : MemoryStore.score_loop query clock 0 (MemoryStore.memories self) = scored).
  { by rewrite score_loop_filter. }
  assert (Hperm : ranking ≡ₚ scored).
  { unfold ranking, MemoryStore.ranked. rewrite Hscored. apply sort_perm. }
  split; [| split; [done | split; [| split; [| split]]]].
  - unfold MemoryStore.get_relevant. by rewrite slice_to_nonneg.
  - rewrite Hperm. unfold scored. apply Forall_forall. intros p Hp.
    by apply list_elem_of_filter in Hp as [Hp _].
  - unfold ranking, MemoryStore.ranked.
    eapply sorted_weaken;
      [| apply (sort_sorted (λ x : Z * Item.t, - x.1))].
    intros p q H. cbn in H. lia.
  - intros s. unfold ranking, MemoryStore.ranked. rewrite Hscored.
    pose proof (sort_filter_key (λ x : Z * Item.t, - x.1) (- s) scored) as H.
    erewrite (list_filter_iff (λ p : Z * Item.t, p.1 = s)),
             (list_filter_iff (λ p : Z * Item.t, p.1 = s) _ scored);
      [exact H | |]; intros p; cbn; lia.
  - unfold MemoryStore.get_relevant.
    rewrite length_map, slice_to_nonneg, length_take by done. lia.
Qed.

Section SplitFacts.

Lemma lower_app (a b : string) : Py.lower (a +:+ b) = Py.lower a +:+ Py.lower b.
Proof.
  induction a as [| c a IH]; [done |].
  change (String c a +:+ b) with (String c (a +:+ b)).
  cbn [Py.lower]. by rewrite IH.
Qed.

Lemma lower_char_idem (c : ascii) : Py.lower_char (Py.lower_char c) = Py.lower_char c.
Proof. destruct c as [[] [] [] [] [] [] [] []]; reflexivity. Qed.

Lemma lower_idem (s : string) : Py.lower (Py.lower s) = Py.lower s.
Proof.
  induction s as [| c s IH]; [done |].
  cbn [Py.lower]. by rewrite lower_char_idem, IH.
Qed.

(** Reading a text [a] first: some words are complete at its end, and a
    pending run is carried into what follows. *)
Lemma split_go_app (a : string) :
  ∀ cur, ∃ done_words pending,
    ∀ b, Py.split_go cur (a +:+ b) = done_words ++ Py.split_go pending b.
Proof.
  induction a as [| c a IH]; intros cur.
  - by exists [], cur.
  - destruct (Py.is_space c) eqn:Hc.
    + destruct (IH "") as (E & p & H). destruct cur as [| c' cur'].
      * exists E, p. intros b.
        change (String c a +:+ b) with (String c (a +:+ b)).
        cbn [Py.split_go]. by rewrite Hc.
      * exists (String.rev (String c' cur') :: E), p. intros b.
        change (String c a +:+ b) with (String c (a +:+ b)).
        cbn [Py.split_go]. rewrite Hc. by rewrite H.
    + destruct (IH (String c cur)) as (E & p & H).
      exists E, p. intros b.
      change (String c a +:+ b) with (String c (a +:+ b)).
      cbn [Py.split_go]. by rewrite Hc.
Qed.

(** Whatever run is pending when [s] is read, the words found are the
    same but for at most one at the front. *)
Lemma split_go_tail (s : string) :
  ∃ tl, ∀ cur, ∃ hd, Py.split_go cur s = hd ++ tl ∧ (length hd ≤ 1)%nat.
Proof.
  induction s as [| c s IH].
  - exists []. intros cur. destruct cur as [| c' cur'].
    + exists []. split; [done | cbn [length]; lia].
    + exists [String.rev (String c' cur')]. split; [done | cbn [length]; lia].
  - destruct (Py.is_space c) eqn:Hc.
    + exists (Py.split_go "" s). intros cur. destruct cur as [| c' cur'].
      * exists []. cbn [Py.split_go]. rewrite Hc.
        split; [done | cbn [length]; lia].
      * exists [String.rev (String c' cur')]. cbn [Py.split_go]. rewrite Hc.
        split; [done | cbn [length]; lia].
    + destruct IH as [tl H]. exists tl. intros cur.
      destruct (H (String c cur)) as (hd & Hhd & Hlen).
      exists hd. cbn [Py.split_go]. rewrite Hc. done.
Qed.

(** Inserting a text into another removes at most one of its words. *)
Lemma split_insert (pre q post : string) :
  ∃ hd, (length hd ≤ 1)%nat
        ∧ ∀ w, w ∈ Py.split (pre +:+ post) →
               w ∈ Py.split (pre +:+ q +:+ post) ∨ w ∈ hd.
Proof.
  unfold Py.split.
  destruct (split_go_app pre "") as (E & p & Hpre).
  destruct (split_go_app q p) as (E2 & p2 & Hq).
  destruct (split_go_tail post) as (tl & Htl).
  destruct (Htl p) as (hd1 & H1 & Hlen1).
  destruct (Htl p2) as (hd2 & H2 & _).
  exists hd1. split; [done |]. intros w.
  rewrite !Hpre, Hq, H1, H2, !elem_of_app. tauto.
Qed.

Lemma overlap_insert (words : gset string) (pre q post : string) :
  (size (words ∩ list_to_set (Py.split (pre +:+ post)))
   ≤ size (words ∩ list_to_set (Py.split (pre +:+ q +:+ post))) + 1)%nat.
Proof.
  destruct (split_insert pre q post) as (hd & Hlen & Hin).
  set (W1 := list_to_set (Py.split (pre +:+ post)) : gset string).
  set (W2 := list_to_set (Py.split (pre +:+ q +:+ post)) : gset string).
  assert (Hsub : words ∩ W1 ⊆ (words ∩ W2) ∪ list_to_set hd).
  { intros w Hw. apply elem_of_intersection in Hw as [Hw Hw1].
    apply elem_of_list_to_set in Hw1. apply elem_of_union.
    destruct (Hin w Hw1) as [H | H].
    - left. apply elem_of_intersection. split; [done |].
      by apply elem_of_list_to_set.
    - right. by apply elem_of_list_to_set. }
  apply subseteq_size in Hsub.
  pose proof (size_union_alt (words ∩ W2) (list_to_set hd)) as Hu.
  rewrite Hu in Hsub.
  assert (Hhd : (size (list_to_set hd ∖ (words ∩ W2) : gset string) ≤ 1)%nat).
  { etrans; [apply subseteq_size, subseteq_difference_l; reflexivity |].
    destruct hd as [| w [| w' hd]]; cbn in Hlen; [| | lia].
    - rewrite list_to_set_nil, size_empty. lia.
    - rewrite list_to_set_cons, list_to_set_nil, union_empty_r_L, size_singleton. lia. }
  lia.
Qed.

End SplitFacts.

(** C6, as amended.  Take an item whose lowercase content does not
    contain the lowercase query, and the item that differs from it only
    by an occurrence of the lowercase query inserted somewhere in its
    content.  The score of the item with the occurrence is at least the
    score of the other, at whatever clock readings the two are scored. *)
Theorem score_monotone_fresh_occurrence (query pre post : string)
  (now_with now_without : Q)
  (i c : string) (s : option string) (p : string) (tk : Z) (ts : Q) (z : bool) :
  Py.contains (Py.lower query) (Py.lower (pre +:+ post)) = false →
  MemoryStore.score query now_without
    (Item.mk i c s (pre +:+ post) p tk ts z)
  ≤ MemoryStore.score query now_with
      (Item.mk i c s (pre +:+ Py.lower query +:+ post) p tk ts z).
Proof.
  intros Hfresh. unfold MemoryStore.score.
  cbn [Item.content Item.category Item.priority Item.timestamp].
  rewrite Hfresh.
  assert (Hocc : Py.contains (Py.lower query)
                   (Py.lower (pre +:+ Py.lower query +:+ post)) = true).
  { rewrite !lower_app, lower_idem. apply contains_spec. eauto. }
  rewrite Hocc.
  assert (E2 : Py.lower (pre +:+ Py.lower query +:+ post)
               = Py.lower pre +:+ Py.lower query +:+ Py.lower post)
    by (by rewrite !lower_app, lower_idem).
  rewrite E2, (lower_app pre post).
  pose proof (overlap_insert (list_to_set (Py.split (Py.lower query)))
                (Py.lower pre) (Py.lower query) (Py.lower post)) as Hov.
  set (o1 := size (_ ∩ list_to_set (Py.split (Py.lower pre +:+ Py.lower post)))) in *.
  set (o2 := size (_ ∩ list_to_set (Py.split (Py.lower pre +:+ Py.lower query +:+ Py.lower post)))) in *.
  clearbody o1 o2.
  destruct (_ || _);
    destruct (String.eqb p "critical"); destruct (String.eqb p "low");
    destruct (Py.Qlt_bool (Qdiv (Qminus now_without ts) (3600 # 1)) (24 # 1));
    destruct (Py.Qlt_bool (Qdiv (Qminus now_without ts) (3600 # 1)) (168 # 1));
    destruct (Py.Qlt_bool (Qdiv (Qminus now_with ts) (3600 # 1)) (24 # 1));
    destruct (Py.Qlt_bool (Qdiv (Qminus now_with ts) (3600 # 1)) (168 # 1));
    lia.
Qed.

Lemma score_monotone_fresh_occurrence_witness :
  MemoryStore.score "port" (100 # 1)
    (Item.mk "d00000000004" "api" None ("runs on " +:+ "8002") "normal" 17 (0 # 1) false)
  ≤ MemoryStore.score "port" (200 # 1)
      (Item.mk "d00000000004" "api" None
         ("runs on " +:+ Py.lower "port" +:+ "8002") "normal" 17 (0 # 1) false).
Proof.
  apply (score_monotone_fresh_occurrence "port" "runs on " "8002").
  reflexivity.
Defined.

(** C6 as stated fails when the content already holds the query: with
    the query [port], the content [port 8002] scores 2 for the shared
    word and 5 for the substring; an occurrence of [port] added right
    after the first gives [portport 8002], which keeps the 5 and loses
    the 2. *)
Lemma score_drops_on_repeated_occurrence :
  ¬ (MemoryStore.score "port" (100 # 1)
       (Item.mk "d00000000004" "api" None ("port" +:+ " 8002") "normal" 17 (0 # 1) false)
     ≤ MemoryStore.score "port" (100 # 1)
         (Item.mk "d00000000004" "api" None
            ("port" +:+ Py.lower "port" +:+ " 8002") "normal" 17 (0 # 1) false)).
Proof. vm_compute. intros H. apply H. reflexivity. Qed.

(** ** Witnesses and the budget overflow *)


Lemma remove_empty_string_takes_first_witness :
  MemoryStore.remove Examples.store ""
  = (Some Examples.item_api,
     {| MemoryStore.version := 1;
        MemoryStore.created := 0 # 1;
        MemoryStore.memories := [Examples.item_style];
        MemoryStore.categories :=
          match MemoryStore.categories Examples.store !! "api" with
          | Some agg =>
              <["api" := {| Aggregate.count := Aggregate.count agg - 1;
                            Aggregate.tokens := Aggregate.tokens agg - 17 |}]>
                (MemoryStore.categories Examples.store)
          | None => MemoryStore.categories Examples.store
          end |}).
Proof.
  apply (remove_empty_string_takes_first Examples.store
           Examples.item_api [Examples.item_style]).
  reflexivity.
Defined.

Lemma get_relevant_ranking_witness :
  Z.of_nat (length (MemoryStore.get_relevant Examples.store "port" 1 Examples.clock))
  ≤ 1.
Proof.
  destruct (get_relevant_ranking Examples.store "port" 1 Examples.clock)
    as (_ & _ & _ & _ & _ & H); [lia | exact H].
Defined.

Lemma aggregates_match_items_witness :
  let final :=
    MemoryStore.run char_encoder Examples.generate_id Examples.ops
      (MemoryStore.initial (0 # 1)) in
  let live := filter (λ m, Item.category m = "arch") (MemoryStore.memories final) in
  MemoryStore.categories final !! "arch" = Some (Aggregate.mk 2 40)
  ∧ Aggregate.count (Aggregate.mk 2 40) = Z.of_nat (length live)
  ∧ Aggregate.tokens (Aggregate.mk 2 40) = Py.sum (map Item.tokens live).
Proof.
  assert (H : MemoryStore.categories
                (MemoryStore.run char_encoder Examples.generate_id Examples.ops
                   (MemoryStore.initial (0 # 1))) !! "arch"
              = Some (Aggregate.mk 2 40)) by (vm_compute; reflexivity).
  split; [exact H |].
  exact (aggregates_match_items char_encoder Examples.generate_id (0 # 1)
           Examples.ops "arch" (Aggregate.mk 2 40) H).
Defined.

Section BudgetFacts.
Context (enc : Encoder).
Import CompressionStrategy.

(** On the two sample items and a target of 200, nothing is protected,
    the first item is taken whole, and the second is summarized to half of
    the budget as it was before the first item was taken. *)
Lemma smart_compress_sample_walk :
  smart_compress enc [Examples.item_a; Examples.item_b] 200 None
  = Py.Return
      match _summarize_single enc Examples.item_b 100 with
      | Some summarized => [Examples.item_a; summarized]
      | None => [Examples.item_a]
      end.
Proof. reflexivity. Qed.

End BudgetFacts.

(** C1 (the code departs from it).  Items [item_a] (150 tokens) and
    [item_b] (120 tokens), neither protected, and a target of 200 tokens:
    the sum of the protected tokens is 0, [item_a] is appended whole, and
    [item_b] is summarized to [remaining_budget // 2 = 100] tokens with
    [remaining_budget] still at its initial value of 200, although only 50
    tokens are left.  Whenever the summary counts more than 50 tokens, the
    result exceeds the target. *)
Theorem stale_budget_overflow (enc : Encoder) (d : Item.t) :
  CompressionStrategy._summarize_single enc Examples.item_b 100 = Some d →
  50 < Item.tokens d →
  ∃ out,
    CompressionStrategy.smart_compress enc
      [Examples.item_a; Examples.item_b] 200 None = Py.Return out
    ∧ out = [Examples.item_a; d]
    ∧ CompressionStrategy.total_tokens
        (filter (λ item, CompressionStrategy.is_protected
                           CompressionStrategy.default_preserve item = true)
           [Examples.item_a; Examples.item_b]) ≤ 200
    ∧ 200 < CompressionStrategy.total_tokens out.
Proof.
  intros Hd Htok. exists [Examples.item_a; d].
  split; [by rewrite smart_compress_sample_walk, Hd |].
  split; [done |]. split; [by vm_compute |].
  unfold CompressionStrategy.total_tokens. cbn [map].
  rewrite !sum_cons, sum_nil.
  change (Item.tokens Examples.item_a) with 150. lia.
Qed.

Lemma stale_budget_overflow_witness :
  ∃ out,
    CompressionStrategy.smart_compress char_encoder
      [Examples.item_a; Examples.item_b] 200 None = Py.Return out
    ∧ CompressionStrategy.total_tokens out = 243.
Proof.
  destruct (stale_budget_overflow char_encoder
              (Item.mk "b00000000002" "notes" None
                 ("the the the the the the the the the the the the the the the the the the the the the the th" +:+ "...")
                 "normal" 93 (1 # 1) true))
    as (out & Hout & -> & _ & _).
  - vm_compute. reflexivity.
  - vm_compute. reflexivity.
  - exists [Examples.item_a;
            Item.mk "b00000000002" "notes" None
              ("the the the the the the the the the the the the the the the the the the the the the the th" +:+ "...")
              "normal" 93 (1 # 1) true].
    split; [exact Hout | reflexivity].
Defined.

(** With a positive target [smart_compress] always returns: the division
    in [_summarize_items] is reached only with a protected item. *)
Lemma smart_compress_positive_target_returns (enc : Encoder)
  (items : list Item.t) (target_tokens : Z)
  (preserve_categories : option (list string)) :
  0 < target_tokens →
  ∃ out,
    CompressionStrategy.smart_compress enc items target_tokens preserve_categories
    = Py.Return out.
Proof.
  intros Hpos. unfold CompressionStrategy.smart_compress.
  set (protected := filter _ items).
  destruct (Z.leb_spec target_tokens (CompressionStrategy.total_tokens protected))
    as [Hle | Hgt]; [| eauto].
  rewrite summarize_items_returns; [eauto |].
  intros Hnil. rewrite Hnil in Hle. cbn in Hle. lia.
Qed.

(** * Further properties *)

(** ** Sorting with any key *)

Section PySortFacts.
Context {A K : Type} (lt : K → K → bool) (key : A → K).

Lemma py_insert_perm (x : A) (l : list A) : Py.insert lt key x l ≡ₚ x :: l.
Proof.
  induction l as [| y l IH]; cbn [Py.insert]; [done |].
  destruct (lt (key y) (key x)); [| done].
  rewrite IH. apply Permutation_swap.
Qed.

Lemma py_sort_perm (l : list A) : Py.sort lt key l ≡ₚ l.
Proof.
  induction l as [| x l IH]; [done |].
  unfold Py.sort in *. cbn [foldr]. rewrite py_insert_perm. by rewrite IH.
Qed.

Hypothesis lt_asym : ∀ a b, lt a b = true → lt b a = false.
Hypothesis le_trans : ∀ a b c, lt b a = false → lt c b = false → lt c a = false.

Lemma py_insert_sorted (x : A) (l : list A) :
  StronglySorted (λ a b, lt (key b) (key a) = false) l →
  StronglySorted (λ a b, lt (key b) (key a) = false) (Py.insert lt key x l).
Proof.
  induction 1 as [| y l Hl IH Hy]; cbn [Py.insert].
  - repeat constructor.
  - destruct (lt (key y) (key x)) eqn:Hlt.
    + constructor; [done |].
      rewrite py_insert_perm. constructor; [by apply lt_asym | done].
    + constructor; [by constructor |].
      constructor; [done |].
      eapply Forall_impl; [exact Hy |]. intros z Hz. cbn in Hz |- *.
      by eapply le_trans.
Qed.

Lemma py_sort_sorted (l : list A) :
  StronglySorted (λ a b, lt (key b) (key a) = false) (Py.sort lt key l).
Proof.
  induction l as [| x l IH]; [constructor |].
  unfold Py.sort in *. cbn [foldr]. by apply py_insert_sorted.
Qed.

End PySortFacts.

Section OrderFacts.

Lemma Qlt_bool_true (x y : Q) : Py.Qlt_bool x y = true ↔ (x < y)%Q.
Proof.
  unfold Py.Qlt_bool. rewrite negb_true_iff, <- not_true_iff_false, Qle_bool_iff.
  split; [apply Qnot_le_lt | apply Qlt_not_le].
Qed.

Lemma Qlt_bool_false (x y : Q) : Py.Qlt_bool x y = false ↔ (y <= x)%Q.
Proof. unfold Py.Qlt_bool. by rewrite negb_false_iff, Qle_bool_iff. Qed.





Lemma Qlt_bool_asym (a b : Q) : Py.Qlt_bool a b = true → Py.Qlt_bool b a = false.
Proof. rewrite Qlt_bool_true, Qlt_bool_false. apply Qlt_le_weak. Qed.

Lemma Qle_bool_trans (a b c : Q) :
  Py.Qlt_bool b a = false → Py.Qlt_bool c b = false → Py.Qlt_bool c a = false.
Proof. rewrite !Qlt_bool_false. intros H1 H2. by eapply Qle_trans. Qed.

End OrderFacts.

(** ** Budget compressor, continued *)

Section CompressionMore.
Context (enc : Encoder).
Import CompressionStrategy.

Lemma same_origin_refl (a : Item.t) : Tokens.same_origin a a.
Proof. by repeat split. Qed.

Lemma summarize_single_origin (item d : Item.t) (max_tokens : Z) :
  _summarize_single enc item max_tokens = Some d →
  Tokens.same_origin item d ∧ Item.compressed d = true.
Proof. unfold _summarize_single. intros [= <-]. by repeat split. Qed.

Lemma total_tokens_app (l1 l2 : list Item.t) :
  total_tokens (l1 ++ l2) = total_tokens l1 + total_tokens l2.
Proof. unfold total_tokens. by rewrite map_app, sum_app. Qed.

Lemma total_tokens_cons (x : Item.t) (l : list Item.t) :
  total_tokens (x :: l) = Item.tokens x + total_tokens l.
Proof. reflexivity. Qed.

Lemma total_tokens_perm (l1 l2 : list Item.t) :
  l1 ≡ₚ l2 → total_tokens l1 = total_tokens l2.
Proof.
  induction 1 as [| x l1 l2 _ IH | x y l | l1 l2 l3 _ IH1 _ IH2];
    rewrite ?total_tokens_cons; [done | lia | lia | congruence].
Qed.

Lemma total_tokens_nonneg (l : list Item.t) :
  Forall (λ item, 0 ≤ Item.tokens item) l → 0 ≤ total_tokens l.
Proof.
  induction 1 as [| x l Hx _ IH]; [done |]. rewrite total_tokens_cons. lia.
Qed.

(** The loop of [_summarize_items] maps each item to itself or to its
    summary, in order. *)
Lemma summarize_loop_pointwise (budget : Z) (items : list Item.t) :
  Forall2 (λ item o,
             Tokens.same_origin item o
             ∧ (Item.tokens item ≤ budget → o = item)
             ∧ (o = item ∨ Item.compressed o = true))
    items (summarize_loop enc budget items).
Proof.
  induction items as [| x rest IH]; [constructor |].
  cbn [summarize_loop]. destruct (Z.leb_spec (Item.tokens x) budget) as [Hle | Hgt].
  - constructor; [| done]. split; [apply same_origin_refl |]. auto.
  - destruct (summarize_single_some enc x budget) as (d & Hd & Hc).
    rewrite Hd. constructor; [| done].
    destruct (summarize_single_origin _ _ _ Hd) as [Ho _].
    split; [done |]. split; [lia | by right].
Qed.

(** While [remaining_budget] is at most 100 the walk summarizes nothing:
    it appends items as they are, and never beyond the target. *)
Lemma compress_loop_no_summary (target : Z) (compressible result : list Item.t)
  (current remaining : Z) :
  remaining ≤ 100 →
  current = total_tokens result →
  current ≤ target →
  ∃ kept,
    compress_loop enc target compressible result current remaining
    = result ++ kept
    ∧ total_tokens (result ++ kept) ≤ target
    ∧ ∀ o, o ∈ kept → o ∈ compressible.
Proof.
  intros Hrem. revert result current.
  induction compressible as [| x rest IH]; intros result current Hcur Hle;
    cbn [compress_loop].
  - exists []. rewrite app_nil_r. split; [done |]. split; [lia |].
    intros o Ho. by apply elem_of_nil in Ho.
  - destruct (Z.leb_spec (current + Item.tokens x) target) as [Hfit | Hnofit].
    + destruct (IH (result ++ [x]) (current + Item.tokens x)) as (kept & Hk & Ht & Hin).
      { rewrite total_tokens_app, total_tokens_cons. cbn. lia. }
      { done. }
      exists (x :: kept). rewrite Hk, <- !app_assoc. cbn [app].
      split; [done |]. split; [by rewrite <- app_assoc in Ht |].
      intros o Ho. apply elem_of_cons in Ho as [-> | Ho];
        apply elem_of_cons; auto.
    + destruct (Z.ltb_spec 100 remaining); [lia |].
      destruct (IH result current Hcur Hle) as (kept & Hk & Ht & Hin).
      exists kept. split; [done |]. split; [done |].
      intros o Ho. apply elem_of_cons. auto.
Qed.

(** When everything fits, the walk appends every item as it is. *)
Lemma compress_loop_all_fit (target : Z) (compressible result : list Item.t)
  (current remaining : Z) :
  Forall (λ item, 0 ≤ Item.tokens item) compressible →
  current + total_tokens compressible ≤ target →
  compress_loop enc target compressible result current remaining
  = result ++ compressible.
Proof.
  intros Hnn. revert result current.
  induction Hnn as [| x rest Hx Hrest IH]; intros result current Hle;
    cbn [compress_loop].
  - by rewrite app_nil_r.
  - rewrite total_tokens_cons in Hle.
    pose proof (total_tokens_nonneg _ Hrest).
    destruct (Z.leb_spec (current + Item.tokens x) target); [| lia].
    rewrite IH by lia. by rewrite <- app_assoc.
Qed.

(** Whatever the walk appends stands for one of the compressible items. *)
Lemma compress_loop_origin (target : Z) (compressible result : list Item.t)
  (current remaining : Z) (o : Item.t) :
  o ∈ compress_loop enc target compressible result current remaining →
  o ∈ result ∨ ∃ item, item ∈ compressible ∧ Tokens.same_origin item o.
Proof.
  revert result current remaining.
  induction compressible as [| x rest IH]; intros result current remaining;
    cbn [compress_loop]; [auto |].
  assert (Hstep : ∀ d current' remaining',
            Tokens.same_origin x d →
            o ∈ compress_loop enc target rest (result ++ [d]) current' remaining' →
            o ∈ result ∨ ∃ item, item ∈ x :: rest ∧ Tokens.same_origin item o).
  { intros d current' remaining' Hd Ho.
    destruct (IH _ _ _ Ho) as [H | (item & Hi & Hs)].
    - apply elem_of_app in H as [H | H]; [by left |].
      apply list_elem_of_singleton in H as ->. right. exists x.
      split; [apply elem_of_cons; by left | done].
    - right. exists item. split; [apply elem_of_cons; by right | done]. }
  assert (Hskip : o ∈ compress_loop enc target rest result current remaining →
            o ∈ result ∨ ∃ item, item ∈ x :: rest ∧ Tokens.same_origin item o).
  { intros Ho. destruct (IH _ _ _ Ho) as [H | (item & Hi & Hs)]; [by left |].
    right. exists item. split; [apply elem_of_cons; by right | done]. }
  destruct (current + Item.tokens x <=? target).
  - apply (Hstep x). apply same_origin_refl.
  - destruct (100 <? remaining); [| done].
    destruct (_summarize_single enc x (remaining / 2)) as [d |] eqn:Hd; [| done].
    apply (Hstep d). by destruct (summarize_single_origin _ _ _ Hd).
Qed.

End CompressionMore.





(** X3. When the room left by the protected items is between 1 and 100
    tokens, [smart_compress] summarizes nothing: every output item is an
    input item, unchanged, and the output totals at most the target. *)
Theorem little_room_no_summary (enc : Encoder)
  (items : list Item.t) (target_tokens : Z)
  (preserve_categories : option (list string)) :
  let protected :=
    filter (λ item,
              CompressionStrategy.is_protected
                (CompressionStrategy.preserve_or_default preserve_categories)
                item = true) items in
  CompressionStrategy.total_tokens protected < target_tokens →
  target_tokens ≤ CompressionStrategy.total_tokens protected + 100 →
  ∃ out,
    CompressionStrategy.smart_compress enc items target_tokens preserve_categories
    = Py.Return out
    ∧ CompressionStrategy.total_tokens out ≤ target_tokens
    ∧ ∀ o, o ∈ out → o ∈ items.
Proof.
  intros protected Hlt Hle. unfold CompressionStrategy.smart_compress.
  fold protected.
  destruct (Z.leb_spec target_tokens (CompressionStrategy.total_tokens protected));
    [lia |].
  match goal with
  | |- context [CompressionStrategy.compress_loop enc ?t ?c ?r ?cur ?rem] =>
      destruct (compress_loop_no_summary enc t c r cur rem)
        as (kept & Hk & Ht & Hin); [lia | done | lia |]
  end.
  eexists. split; [reflexivity |]. rewrite Hk. split; [done |].
  intros o Ho. apply elem_of_app in Ho as [Ho | Ho].
  - by apply list_elem_of_filter in Ho as [_ Ho].
  - apply Hin in Ho. rewrite py_sort_perm in Ho.
    by apply list_elem_of_filter in Ho as [_ Ho].
Qed.

Lemma little_room_no_summary_witness :
  ∃ out,
    CompressionStrategy.smart_compress char_encoder
      [Examples.item_api; Examples.item_style] 20 None = Py.Return out
    ∧ CompressionStrategy.total_tokens out ≤ 20
    ∧ ∀ o, o ∈ out → o ∈ [Examples.item_api; Examples.item_style].
Proof.
  apply (little_room_no_summary char_encoder
           [Examples.item_api; Examples.item_style] 20 None).
  - vm_compute. reflexivity.
  - vm_compute. discriminate.
Defined.

(** X4. When no token count is negative and all the items together stay
    below the target, [smart_compress] returns every item unchanged: the
    protected items in input order, then the compressible items in the
    order of the walk. *)
Theorem ample_budget_keeps_everything (enc : Encoder)
  (items : list Item.t) (target_tokens : Z)
  (preserve_categories : option (list string)) :
  Forall (λ item, 0 ≤ Item.tokens item) items →
  CompressionStrategy.total_tokens items < target_tokens →
  let preserve := CompressionStrategy.preserve_or_default preserve_categories in
  let out :=
    filter (λ item, CompressionStrategy.is_protected preserve item = true) items
    ++ Py.sort Py.pair_lt CompressionStrategy.sort_key
         (filter (λ item, CompressionStrategy.is_protected preserve item ≠ true)
            items) in
  CompressionStrategy.smart_compress enc items target_tokens preserve_categories
  = Py.Return out
  ∧ out ≡ₚ items.
Proof.
  intros Hnn Hlt preserve out.
  assert (Hperm : out ≡ₚ items).
  { unfold out. rewrite py_sort_perm. apply filter_app_complement. }
  split; [| done].
  unfold CompressionStrategy.smart_compress. fold preserve.
  set (protected := filter _ items) in *.
  set (compressible := filter (λ item, _ ≠ true) items) in *.
  assert (Htot : CompressionStrategy.total_tokens protected
                 + CompressionStrategy.total_tokens
                     (Py.sort Py.pair_lt CompressionStrategy.sort_key compressible)
                 = CompressionStrategy.total_tokens items).
  { rewrite <- total_tokens_app. by apply total_tokens_perm. }
  assert (Hnn_walk : Forall (λ item, 0 ≤ Item.tokens item)
                       (Py.sort Py.pair_lt CompressionStrategy.sort_key compressible)).
  { apply Forall_forall. intros z Hz. rewrite py_sort_perm in Hz.
    apply list_elem_of_filter in Hz as [_ Hz].
    by apply (proj1 (Forall_forall _ _) Hnn). }
  pose proof (total_tokens_nonneg _ Hnn_walk).
  destruct (Z.leb_spec target_tokens (CompressionStrategy.total_tokens protected));
    [lia |].
  rewrite compress_loop_all_fit by (done || lia). done.
Qed.

Lemma ample_budget_keeps_everything_witness :
  CompressionStrategy.smart_compress char_encoder
    [Examples.item_style; Examples.item_arch; Examples.item_api] 1000 None
  = Py.Return [Examples.item_arch; Examples.item_api; Examples.item_style].
Proof.
  destruct (ample_budget_keeps_everything char_encoder
              [Examples.item_style; Examples.item_arch; Examples.item_api]
              1000 None) as [H _].
  - repeat constructor; vm_compute; discriminate.
  - vm_compute. reflexivity.
  - exact H.
Defined.

(** X5. [smart_compress] invents nothing: every item it returns has the
    id, category, subcategory, priority and timestamp of some input item. *)
Theorem output_items_come_from_input (enc : Encoder)
  (items : list Item.t) (target_tokens : Z)
  (preserve_categories : option (list string)) (out : list Item.t) (o : Item.t) :
  CompressionStrategy.smart_compress enc items target_tokens preserve_categories
  = Py.Return out →
  o ∈ out →
  ∃ item, item ∈ items ∧ Tokens.same_origin item o.
Proof.
  unfold CompressionStrategy.smart_compress.
  set (preserve := CompressionStrategy.preserve_or_default preserve_categories).
  set (protected := filter _ items).
  set (compressible := filter (λ item, _ ≠ true) items).
  destruct (target_tokens <=? CompressionStrategy.total_tokens protected).
  - destruct protected as [| x rest] eqn:Hp; [discriminate |].
    rewrite summarize_items_returns by discriminate.
    intros [= <-] Ho.
    pose proof (summarize_loop_pointwise enc
                  (Z.max 50 (target_tokens / Z.of_nat (length (x :: rest))))
                  (x :: rest)) as Hall.
    destruct (proj1 (list_elem_of_lookup _ _) Ho) as [i Hi].
    destruct (Forall2_lookup_r _ _ _ _ _ Hall Hi) as (item & Hitem & Hor & _).
    exists item. split; [| done].
    assert (Hin : item ∈ protected)
      by (rewrite Hp; apply list_elem_of_lookup; eauto).
    by apply list_elem_of_filter in Hin as [_ Hin].
  - intros [= <-] Ho. apply compress_loop_origin in Ho as [Ho | (item & Hi & Hs)].
    + exists o. split; [| apply same_origin_refl].
      by apply list_elem_of_filter in Ho as [_ Ho].
    + exists item. split; [| done]. rewrite py_sort_perm in Hi.
      by apply list_elem_of_filter in Hi as [_ Hi].
Qed.

Lemma output_items_come_from_input_witness :
  ∃ item,
    item ∈ [Examples.item_a; Examples.item_b]
    ∧ Tokens.same_origin item
        (Item.mk "b00000000002" "notes" None
           ("the the the the the the the the the the the the the the the the the the the the the the th" +:+ "...")
           "normal" 93 (1 # 1) true).
Proof.
  apply (output_items_come_from_input char_encoder
           [Examples.item_a; Examples.item_b] 200 None
           [Examples.item_a;
            Item.mk "b00000000002" "notes" None
              ("the the the the the the the the the the the the the the the the the the the the the the th" +:+ "...")
              "normal" 93 (1 # 1) true]).
  - vm_compute. reflexivity.
  - apply list_elem_of_further, list_elem_of_here.
Defined.

Section WalkOrder.
Context (enc : Encoder).
Import CompressionStrategy.





End WalkOrder.



(** X7. [to_pointers] gives one pointer per item, in order, each with the
    category and id of its item and a fixed cost of 15 tokens. *)
Theorem to_pointers_cost (items : list Item.t) :
  length (Tokens.to_pointers items) = length items
  ∧ map Pointer.category (Tokens.to_pointers items) = map Item.category items
  ∧ map Pointer.original_id (Tokens.to_pointers items)
    = map (λ item, Some (Item.id item)) items
  ∧ Py.sum (map Pointer.tokens (Tokens.to_pointers items))
    = 15 * Z.of_nat (length items).
Proof.
  unfold Tokens.to_pointers. rewrite length_map, !map_map. cbn.
  split; [done |]. split; [done |]. split; [done |].
  induction items as [| x l IH]; [done |].
  cbn [map length]. rewrite sum_cons, IH. lia.
Qed.

(** ** Store, continued *)

Section StoreMore.
Context (enc : Encoder) (generate_id : string → Q → string).
Import MemoryStore.




Lemma string_app_nil_r (s : string) : s +:+ "" = s.
Proof.
  induction s as [| c s IH]; [done |].
  change (String c s +:+ "") with (String c (s +:+ "")). by rewrite IH.
Qed.



End StoreMore.





Section IndexFacts.

Lemma sum_map_perm {A} (f : A → Z) (l1 l2 : list A) :
  l1 ≡ₚ l2 → Py.sum (map f l1) = Py.sum (map f l2).
Proof.
  induction 1 as [| x l1 l2 _ IH | x y l | l1 l2 l3 _ IH1 _ IH2];
    cbn [map]; rewrite ?sum_cons; [done | lia | lia | congruence].
Qed.

Lemma sum_filter_split {A} (f : A → Z) (P : A → Prop)
  `{∀ x, Decision (P x)} (l : list A) :
  Py.sum (map f l)
  = Py.sum (map f (filter P l)) + Py.sum (map f (filter (λ x, ¬ P x) l)).
Proof.
  induction l as [| x l IH]; [done |].
  rewrite !filter_cons. cbn [map]. rewrite sum_cons.
  destruct (decide (P x)), (decide (¬ P x)); try done;
    cbn [map]; rewrite ?sum_cons; lia.
Qed.

Lemma length_filter_split {A} (P : A → Prop) `{∀ x, Decision (P x)} (l : list A) :
  length l = (length (filter P l) + length (filter (λ x, ¬ P x) l))%nat.
Proof.
  induction l as [| x l IH]; [done |].
  rewrite !filter_cons.
  destruct (decide (P x)), (decide (¬ P x)); try done; cbn [length]; lia.
Qed.

Lemma filter_category_other (c i : string) (l : list Item.t) :
  c ≠ i →
  filter (λ m, Item.category m = c) (filter (λ m, ¬ Item.category m = i) l)
  = filter (λ m, Item.category m = c) l.
Proof.
  intros Hne. induction l as [| x l IH]; [done |].
  rewrite (filter_cons (λ m, ¬ Item.category m = i)).
  destruct (decide (¬ Item.category x = i)) as [Hx | Hx].
  - rewrite !filter_cons. destruct (decide (Item.category x = c)); by rewrite IH.
  - rewrite IH, filter_cons.
    destruct (decide (Item.category x = c)); [| done].
    exfalso. apply Hx. congruence.
Qed.

(** Aggregates that agree with a list of items add up to the list. *)
Lemma aggregates_add_up (cats : gmap string Aggregate.t) :
  ∀ mems : list Item.t,
    (∀ c a, cats !! c = Some a →
       Aggregate.count a
       = Z.of_nat (length (filter (λ m, Item.category m = c) mems))
       ∧ Aggregate.tokens a
         = Py.sum (map Item.tokens (filter (λ m, Item.category m = c) mems))) →
    (∀ m, m ∈ mems → is_Some (cats !! Item.category m)) →
    Py.sum (map (λ e : string * Aggregate.t, Aggregate.tokens e.2)
              (filter (λ e : string * Aggregate.t, 0 < Aggregate.count e.2)
                 (map_to_list cats)))
    = Py.sum (map Item.tokens mems)
    ∧ Py.sum (map (λ e : string * Aggregate.t, Aggregate.count e.2)
                (filter (λ e : string * Aggregate.t, 0 < Aggregate.count e.2)
                   (map_to_list cats)))
      = Z.of_nat (length mems).
Proof.
  induction cats as [| i x m Hi Hfresh IH] using map_first_key_ind;
    intros mems Hagg Hdom.
  - rewrite map_to_list_empty, filter_nil. destruct mems as [| m0 l]; [done |].
    destruct (Hdom m0) as [a Ha]; [apply list_elem_of_here |].
    by rewrite lookup_empty in Ha.
  - destruct (IH (filter (λ m0, ¬ Item.category m0 = i) mems)) as [IHt IHc].
    { intros c a Hc.
      assert (c ≠ i) by congruence.
      rewrite filter_category_other by done.
      apply Hagg. by rewrite lookup_insert_ne. }
    { intros m0 Hm0. apply list_elem_of_filter in Hm0 as [Hne Hm0].
      specialize (Hdom m0 Hm0). by rewrite lookup_insert_ne in Hdom. }
    destruct (Hagg i x) as [Hx1 Hx2]; [apply lookup_insert_eq |].
    rewrite (sum_filter_split Item.tokens (λ m0, Item.category m0 = i) mems).
    rewrite (length_filter_split (λ m0, Item.category m0 = i) mems).
    rewrite map_to_list_insert_first_key by done.
    rewrite filter_cons. cbn [snd].
    destruct (decide (0 < Aggregate.count x)) as [Hpos | Hzero].
    + cbn [map snd]. rewrite !sum_cons. cbn [snd]. lia.
    + assert (Hnil : filter (λ m0, Item.category m0 = i) mems = []).
      { destruct (filter (λ m0, Item.category m0 = i) mems) as [| m1 l1];
          [done | cbn [length] in Hx1; lia]. }
      rewrite Hnil in Hx2 |- *. cbn [map length] in Hx2 |- *.
      rewrite sum_nil in Hx2 |- *. lia.
Qed.

End IndexFacts.

(** X11. In a store built by [add] and [remove], the categories that
    [_write_index] lists (those with a positive count) add up: their
    counts sum to the number of stored items and their tokens sum to
    [total_tokens()]. *)
Theorem index_adds_up (enc : Encoder) (generate_id : string → Q → string)
  (now : Q) (ops : list MemoryStore.op) :
  let self := MemoryStore.run enc generate_id ops (MemoryStore.initial now) in
  Py.sum (map (λ e : string * Aggregate.t, Aggregate.tokens e.2)
            (Memory.index_entries self))
  = Memory.total_tokens self
  ∧ Py.sum (map (λ e : string * Aggregate.t, Aggregate.count e.2)
              (Memory.index_entries self))
    = Z.of_nat (length (MemoryStore.memories self)).
Proof.
  intros self.
  destruct (run_consistent enc generate_id ops _ (consistent_initial now))
    as [Hagg Hdom].
  apply aggregates_add_up; [exact Hagg | exact Hdom].
Qed.

(** X12. [list] returns the stored items of the category (all of them
    when no category, or the empty string, is given), rearranged from the
    newest to the oldest. *)
Theorem list_newest_first (self : MemoryStore.t) (category : option string) :
  Memory.list_ self category
  ≡ₚ match category with
     | None => MemoryStore.memories self
     | Some c =>
         if String.eqb c "" then MemoryStore.memories self
         else filter (λ m, Item.category m = c) (MemoryStore.memories self)
     end
  ∧ StronglySorted (λ a b, (Item.timestamp b <= Item.timestamp a)%Q)
      (Memory.list_ self category)
  ∧ Memory.list_ self (Some "") = Memory.list_ self None.
Proof.
  split; [| split; [| done]].
  - unfold Memory.list_. rewrite py_sort_perm.
    destruct category as [[| ch c] |]; done.
  - unfold Memory.list_.
    eapply sorted_weaken;
      [| apply (py_sort_sorted Py.Qlt_bool (λ x, Qopp (Item.timestamp x))
                  Qlt_bool_asym Qle_bool_trans)].
    intros a b H. apply Qlt_bool_false in H.
    unfold Qle, Qopp in *. cbn in H. lia.
Qed.

Section ScorerMore.
Import MemoryStore.

(** The parts of a score: the lexical ones are never negative. *)
Lemma score_lower_bound (query : string) (now : Q) (item : Item.t) :
  (if String.eqb (Item.priority item) "critical" then 5
   else if String.eqb (Item.priority item) "low" then -2 else 0)
  + (if Py.Qlt_bool (Qdiv (Qminus now (Item.timestamp item)) (3600 # 1)) (24 # 1)
     then 3
     else if Py.Qlt_bool (Qdiv (Qminus now (Item.timestamp item)) (3600 # 1))
               (168 # 1)
          then 1 else 0)
  + (if Py.contains (Py.lower query) (Py.lower (Item.content item)) then 5 else 0)
  + (if Py.contains (Py.lower (Item.category item)) (Py.lower query)
        || Py.contains (Py.lower query) (Py.lower (Item.category item))
     then 10 else 0)
  ≤ score query now item.
Proof.
  unfold score.
  set (o := size _). clearbody o.
  repeat match goal with
         | |- context [if ?b then _ else _] => destruct b
         end; lia.
Qed.

(** A stored item with a positive score at its clock reading is ranked. *)
Lemma positive_score_ranked (self : t) (query : string) (clock : nat → Q)
  (k : nat) (item : Item.t) :
  memories self !! k = Some item →
  0 < score query (clock k) item →
  (score query (clock k) item, item) ∈ ranked self query clock.
Proof.
  intros Hk Hpos. unfold ranked. rewrite (sort_perm (λ x : Z * Item.t, - x.1)).
  rewrite score_loop_filter. apply list_elem_of_filter. split; [done |].
  apply list_elem_of_lookup. exists k. rewrite list_lookup_imap, Hk. done.
Qed.

Lemma filter_all {A} (P : A → Prop) `{∀ x, Decision (P x)} (l : list A) :
  Forall P l → filter P l = l.
Proof.
  induction 1 as [| x l Hx _ IH]; [done |].
  by rewrite filter_cons_True, IH.
Qed.

Lemma map_snd_imap_pair {A B} (f : nat → A → B) (l : list A) :
  map snd (imap (λ i x, (f i x, x)) l) = l.
Proof.
  revert f. induction l as [| x l IH]; intros f; [done |].
  cbn [imap map snd]. f_equal. apply (IH (λ i, f (S i))).
Qed.

End ScorerMore.

(** X13. A critical item is relevant to every query: its score is at
    least 5, so [get_relevant] ranks every critical item of the store,
    whatever the query and the clock. *)
Theorem critical_items_always_ranked (self : MemoryStore.t) (query : string)
  (clock : nat → Q) (item : Item.t) :
  item ∈ MemoryStore.memories self →
  Item.priority item = "critical" →
  (∀ now, 5 ≤ MemoryStore.score query now item)
  ∧ item ∈ map snd (MemoryStore.ranked self query clock).
Proof.
  intros Hin Hcrit.
  assert (Hscore : ∀ now, 5 ≤ MemoryStore.score query now item).
  { intros now. pose proof (score_lower_bound query now item) as H.
    destruct (String.eqb_spec (Item.priority item) "critical") as [_ |];
      [| done].
    cbv beta iota in H.
    repeat match type of H with
           | context [if ?b then _ else _] => destruct b
           end; lia. }
  split; [done |].
  apply list_elem_of_lookup in Hin as [k Hk].
  apply list_elem_of_fmap. exists (MemoryStore.score query (clock k) item, item).
  split; [done |]. apply positive_score_ranked; [done |].
  specialize (Hscore (clock k)). lia.
Qed.

Lemma critical_items_always_ranked_witness :
  (∀ now, 5 ≤ MemoryStore.score "tabs" now Examples.item_arch)
  ∧ Examples.item_arch
    ∈ map snd
        (MemoryStore.ranked
           (MemoryStore.mk 1 (0 # 1) [Examples.item_style; Examples.item_arch] ∅)
           "tabs" Examples.clock).
Proof.
  apply (critical_items_always_ranked
           (MemoryStore.mk 1 (0 # 1) [Examples.item_style; Examples.item_arch] ∅)
           "tabs" Examples.clock Examples.item_arch).
  - apply list_elem_of_further, list_elem_of_here.
  - reflexivity.
Defined.

(** X14. The empty query matches everything: every item scores at least
    13 on it, so [get_relevant("")] ranks all the stored items and returns
    [max_items] of them, or all when there are fewer. *)
Theorem empty_query_ranks_everything (self : MemoryStore.t) (max_items : Z)
  (clock : nat → Q) :
  0 ≤ max_items →
  (∀ now item, 13 ≤ MemoryStore.score "" now item)
  ∧ map snd (MemoryStore.ranked self "" clock) ≡ₚ MemoryStore.memories self
  ∧ length (MemoryStore.get_relevant self "" max_items clock)
    = Nat.min (Z.to_nat max_items) (length (MemoryStore.memories self)).
Proof.
  intros Hmax.
  assert (Hscore : ∀ now item, 13 ≤ MemoryStore.score "" now item).
  { intros now item. pose proof (score_lower_bound "" now item) as H.
    cbn [Py.lower] in H. rewrite !contains_empty, orb_true_r in H.
    repeat match type of H with
           | context [if ?b then _ else _] => destruct b
           end; lia. }
  assert (Hperm : map snd (MemoryStore.ranked self "" clock)
                  ≡ₚ MemoryStore.memories self).
  { unfold MemoryStore.ranked.
    rewrite (sort_perm (λ x : Z * Item.t, - x.1)), score_loop_filter.
    rewrite filter_all.
    - by rewrite (map_snd_imap_pair (λ i item, MemoryStore.score "" (clock (0 + i)%nat) item)).
    - apply Forall_forall. intros [s it] Hin.
      apply list_elem_of_lookup in Hin as [k Hk].
      apply list_lookup_imap_Some in Hk as (y & _ & [= -> ->]). cbn [fst].
      specialize (Hscore (clock k) y). lia. }
  split; [done |]. split; [done |].
  unfold MemoryStore.get_relevant.
  rewrite length_map, slice_to_nonneg, length_take by done.
  rewrite <- (Permutation_length Hperm), length_map. done.
Qed.

Lemma empty_query_ranks_everything_witness :
  length (MemoryStore.get_relevant Examples.store "" 20 Examples.clock)
  = Nat.min (Z.to_nat 20) (length (MemoryStore.memories Examples.store)).
Proof.
  destruct (empty_query_ranks_everything Examples.store 20 Examples.clock)
    as (_ & _ & H); [lia | exact H].
Defined.

(** X15. An item less than a week (168 hours) old whose priority is not
    [low] has a positive score for every query, related or not: it is
    never left out of the ranking. *)
Theorem recent_items_match_any_query (query : string) (now : Q) (item : Item.t) :
  Item.priority item ≠ "low" →
  (Qdiv (Qminus now (Item.timestamp item)) (3600 # 1) < 168 # 1)%Q →
  0 < MemoryStore.score query now item.
Proof.
  intros Hprio Hage. pose proof (score_lower_bound query now item) as H.
  apply Qlt_bool_true in Hage. rewrite Hage in H.
  destruct (String.eqb_spec (Item.priority item) "low") as [| _]; [done |].
  cbv beta iota in H.
  repeat match type of H with
         | context [if ?b then _ else _] => destruct b
         end; lia.
Qed.

Lemma recent_items_match_any_query_witness :
  0 < MemoryStore.score "kubernetes" (100 # 1)
        (Item.mk "e00000000005" "style" None "use tabs" "normal" 8 (0 # 1) false).
Proof.
  apply recent_items_match_any_query.
  - discriminate.
  - reflexivity.
Defined.

(** ** Configuration *)

Section ConfigFacts.
Import Config.

Lemma dict_get_set_eq (k : string) (v : value) (d : dict) :
  dict_get k (dict_set k v d) = Some v.
Proof.
  induction d as [| [k' v'] d IH]; cbn [dict_set dict_get].
  - by rewrite String.eqb_refl.
  - destruct (String.eqb_spec k' k) as [-> | Hne]; cbn [dict_get].
    + by rewrite String.eqb_refl.
    + destruct (String.eqb_spec k' k); [done | apply IH].
Qed.

Lemma dict_get_set_ne (k k' : string) (v : value) (d : dict) :
  k ≠ k' → dict_get k' (dict_set k v d) = dict_get k' d.
Proof.
  intros Hne. induction d as [| [k0 v0] d IH]; cbn [dict_set dict_get].
  - destruct (String.eqb_spec k k'); done.
  - destruct (String.eqb_spec k0 k) as [-> | Hk]; cbn [dict_get].
    + destruct (String.eqb_spec k k'); done.
    + destruct (String.eqb_spec k0 k'); [done | apply IH].
Qed.

Lemma dict_get_none (k : string) (d : dict) :
  dict_get k d = None ↔ k ∉ map fst d.
Proof.
  induction d as [| [k0 v0] d IH]; cbn [dict_get map fst].
  - split; [intros _ H; by apply elem_of_nil in H | done].
  - rewrite not_elem_of_cons.
    destruct (String.eqb_spec k0 k) as [-> | Hne].
    + split; [done | by intros [? _]].
    + rewrite IH. split; [auto | by intros [_ ?]].
Qed.

Lemma dict_set_fresh (k : string) (v : value) (d : dict) :
  dict_get k d = None → dict_set k v d = d ++ [(k, v)].
Proof.
  induction d as [| [k0 v0] d IH]; cbn [dict_get dict_set app]; [done |].
  destruct (String.eqb_spec k0 k); [done |]. intros H. by rewrite IH.
Qed.

Lemma dict_get_app_none (k : string) (d1 d2 : dict) :
  dict_get k d1 = None → dict_get k (d1 ++ d2) = dict_get k d2.
Proof.
  induction d1 as [| [k0 v0] d1 IH]; cbn [dict_get app]; [done |].
  destruct (String.eqb_spec k0 k); [done | apply IH].
Qed.

(** [merge_value] on two dicts is [_deep_merge]; on anything else it is
    the overriding value. *)
Lemma merge_value_dicts (rd vd : dict) :
  merge_value (Some (VDict rd)) (VDict vd) = VDict (_deep_merge rd vd).
Proof. reflexivity. Qed.

Lemma merge_value_spec (existing : option value) (v : value) :
  merge_value existing v
  = match existing, v with
    | Some (VDict rd), VDict vd => VDict (_deep_merge rd vd)
    | _, _ => v
    end.
Proof. destruct existing as [[] |], v; done. Qed.

Lemma deep_merge_cons (base : dict) (k : string) (v : value) (rest : dict) :
  _deep_merge base ((k, v) :: rest)
  = _deep_merge (dict_set k (merge_value (dict_get k base) v) base) rest.
Proof. reflexivity. Qed.

Lemma deep_merge_lookup_notin (k : string) (override : dict) :
  ∀ base, k ∉ map fst override →
          dict_get k (_deep_merge base override) = dict_get k base.
Proof.
  induction override as [| [k0 v0] rest IH]; intros base Hk; [done |].
  cbn [map fst] in Hk. apply not_elem_of_cons in Hk as [Hne Hk].
  rewrite deep_merge_cons, IH by done. by apply dict_get_set_ne.
Qed.

Lemma deep_merge_lookup_in (k : string) (v : value) (override : dict) :
  ∀ base, NoDup (map fst override) →
          dict_get k override = Some v →
          dict_get k (_deep_merge base override)
          = Some (merge_value (dict_get k base) v).
Proof.
  induction override as [| [k0 v0] rest IH]; intros base Hnd Hk; [done |].
  cbn [map fst] in Hnd. apply NoDup_cons in Hnd as [Hk0 Hnd].
  cbn [dict_get] in Hk. rewrite deep_merge_cons.
  destruct (String.eqb_spec k0 k) as [-> | Hne].
  - injection Hk as ->. rewrite deep_merge_lookup_notin by done.
    apply dict_get_set_eq.
  - rewrite (IH _ Hnd Hk). by rewrite dict_get_set_ne.
Qed.

End ConfigFacts.

(** X17. What [_deep_merge] holds under a key: the value of [base] when
    [override] does not have the key; the merge of the two values when
    both are dicts; the value of [override] otherwise.  (The keys of a
    Python dict are distinct.) *)
Theorem deep_merge_lookup (base override : Config.dict) (k : string) :
  NoDup (map fst override) →
  Config.dict_get k (Config._deep_merge base override)
  = match Config.dict_get k override with
    | None => Config.dict_get k base
    | Some v =>
        Some match Config.dict_get k base, v with
             | Some (Config.VDict b), Config.VDict o =>
                 Config.VDict (Config._deep_merge b o)
             | _, _ => v
             end
    end.
Proof.
  intros Hnd. destruct (Config.dict_get k override) as [v |] eqn:Hk.
  - rewrite (deep_merge_lookup_in k v) by done. by rewrite merge_value_spec.
  - apply deep_merge_lookup_notin. by apply dict_get_none.
Qed.

Lemma deep_merge_lookup_witness :
  Config.dict_get "token_budgets"
    (Config._deep_merge Config.DEFAULT_CONFIG
       [("token_budgets", Config.VDict [("cursor", Config.VInt 9000)])])
  = Some (Config.VDict
            (Config._deep_merge
               [("claude-code", Config.VInt 10000); ("cursor", Config.VInt 6000);
                ("copilot", Config.VInt 3000); ("aider", Config.VInt 4000);
                ("windsurf", Config.VInt 5000); ("cline", Config.VInt 5000);
                ("continue", Config.VInt 4000); ("zed", Config.VInt 4000);
                ("default", Config.VInt 4000)]
               [("cursor", Config.VInt 9000)])).
Proof.
  apply (deep_merge_lookup Config.DEFAULT_CONFIG
           [("token_budgets", Config.VDict [("cursor", Config.VInt 9000)])]
           "token_budgets").
  repeat constructor. intros H. by apply elem_of_nil in H.
Defined.

(** X18. Keys that [base] does not have are appended to it in the order
    of [override], with the values of [override] untouched; in
    particular merging into an empty dict gives [override] back. *)
Theorem deep_merge_new_keys (base override : Config.dict) :
  NoDup (map fst override) →
  (∀ k, k ∈ map fst override → Config.dict_get k base = None) →
  Config._deep_merge base override = base ++ override.
Proof.
  revert base. induction override as [| [k0 v0] rest IH]; intros base Hnd Hnew.
  - by rewrite app_nil_r.
  - cbn [map fst] in Hnd. apply NoDup_cons in Hnd as [Hk0 Hnd].
    assert (H0 : Config.dict_get k0 base = None)
      by (apply Hnew; cbn; apply list_elem_of_here).
    rewrite deep_merge_cons, H0, merge_value_spec, dict_set_fresh by done.
    rewrite IH; [by rewrite <- app_assoc | done |].
    intros k Hk. rewrite dict_get_app_none.
    + cbn [Config.dict_get]. destruct (String.eqb_spec k0 k) as [-> | _]; done.
    + apply Hnew. cbn. by apply list_elem_of_further.
Qed.

Lemma deep_merge_new_keys_witness :
  Config._deep_merge []
    [("sync", Config.VDict [("max_errors", Config.VInt 3)]);
     ("version", Config.VInt 2)]
  = [("sync", Config.VDict [("max_errors", Config.VInt 3)]);
     ("version", Config.VInt 2)].
Proof.
  apply (deep_merge_new_keys []
           [("sync", Config.VDict [("max_errors", Config.VInt 3)]);
            ("version", Config.VInt 2)]).
  - repeat constructor; intros H;
      repeat (apply elem_of_cons in H as [H | H]; [discriminate |]);
      by apply elem_of_nil in H.
  - reflexivity.
Defined.

(** X19. A configuration file that sets the budget of one tool changes
    the budget of that tool only: after merging it into a configuration
    whose [token_budgets] is a dict, [get_budget] answers the new budget
    for the tool and, unless the tool is [default], what it answered
    before for every other tool. *)
Theorem one_tool_budget_override (data budgets : Config.dict)
  (tool : string) (n : Z) :
  Config.dict_get "token_budgets" data = Some (Config.VDict budgets) →
  let merged :=
    Config._deep_merge data
      [("token_budgets", Config.VDict [(tool, Config.VInt n)])] in
  Config.get_budget merged tool = Some (Config.VInt n)
  ∧ ∀ other, other ≠ tool → tool ≠ "default" →
             Config.get_budget merged other = Config.get_budget data other.
Proof.
  intros Hb merged.
  assert (Hm : Config.dict_get "token_budgets" merged
               = Some (Config.VDict
                         (Config.dict_set tool (Config.VInt n) budgets))).
  { unfold merged. rewrite deep_merge_cons. cbn [Config._deep_merge fold_left].
    by rewrite dict_get_set_eq, Hb. }
  unfold Config.get_budget, Config.token_budgets. rewrite Hm, Hb. split.
  - by rewrite dict_get_set_eq.
  - intros other Hne Hdef. by rewrite !dict_get_set_ne.
Qed.

Lemma one_tool_budget_override_witness :
  Config.get_budget
    (Config.load None
       (Some [("token_budgets", Config.VDict [("cursor", Config.VInt 9000)])]))
    "cursor"
  = Some (Config.VInt 9000).
Proof.
  apply (one_tool_budget_override Config.DEFAULT_CONFIG
           [("claude-code", Config.VInt 10000); ("cursor", Config.VInt 6000);
            ("copilot", Config.VInt 3000); ("aider", Config.VInt 4000);
            ("windsurf", Config.VInt 5000); ("cline", Config.VInt 5000);
            ("continue", Config.VInt 4000); ("zed", Config.VInt 4000);
            ("default", Config.VInt 4000)] "cursor" 9000).
  reflexivity.
Defined.

(** ** Extraction *)

Section ExtractorFacts.
Import Extractor.

Lemma categorize_in_range (table : list (string * list string)) (text : string) :
  categorize_in table text ∈ map fst table ∨ categorize_in table text = "gotcha".
Proof.
  induction table as [| [category keywords] rest IH]; cbn [categorize_in map fst];
    [by right |].
  destruct (existsb _ keywords).
  - left. apply list_elem_of_here.
  - destruct IH as [IH | IH]; [left; by apply list_elem_of_further | by right].
Qed.

(** The loop keeps a memory exactly when its key is new. *)
Lemma dedup_loop_keys (memories : list Extracted.t) :
  ∀ seen,
    NoDup (map dedup_key (dedup_loop seen memories))
    ∧ (∀ k, k ∈ map dedup_key (dedup_loop seen memories) → k ∉ seen)
    ∧ (∀ m, m ∈ memories →
            dedup_key m ∈ seen
            ∨ dedup_key m ∈ map dedup_key (dedup_loop seen memories))
    ∧ dedup_loop seen memories `sublist_of` memories.
Proof.
  induction memories as [| mem rest IH]; intros seen; cbn [dedup_loop].
  - split; [constructor |]. split; [intros k H; by apply elem_of_nil in H |].
    split; [intros m H; by apply elem_of_nil in H | constructor].
  - destruct (decide (dedup_key mem ∈ seen)) as [Hin | Hnew].
    + destruct (IH seen) as (Hnd & Hdisj & Hcov & Hsub).
      split; [done |]. split; [done |]. split; [| by constructor].
      intros m Hm. apply elem_of_cons in Hm as [-> | Hm]; auto.
    + destruct (IH ({[dedup_key mem]} ∪ seen)) as (Hnd & Hdisj & Hcov & Hsub).
      cbn [map]. split; [| split; [| split]].
      * constructor; [| done]. intros Hk. apply Hdisj in Hk.
        apply Hk, elem_of_union. left. by apply elem_of_singleton.
      * intros k Hk. apply elem_of_cons in Hk as [-> | Hk]; [done |].
        apply Hdisj in Hk. intros Hs. apply Hk, elem_of_union. by right.
      * intros m Hm. apply elem_of_cons in Hm as [-> | Hm];
          [right; apply list_elem_of_here |].
        destruct (Hcov m Hm) as [H | H]; [| right; by apply list_elem_of_further].
        apply elem_of_union in H as [H | H]; [| by left].
        apply elem_of_singleton in H. right. rewrite H. apply list_elem_of_here.
      * by constructor.
Qed.

(** Reading a list in two parts: the second part is read with the keys
    of the first already seen. *)
Lemma dedup_loop_app (l1 l2 : list Extracted.t) :
  ∀ seen,
    dedup_loop seen (l1 ++ l2)
    = dedup_loop seen l1
      ++ dedup_loop (list_to_set (map dedup_key l1) ∪ seen) l2.
Proof.
  induction l1 as [| mem rest IH]; intros seen; cbn [app dedup_loop map].
  - rewrite list_to_set_nil. by rewrite (left_id_L ∅ (∪)).
  - rewrite list_to_set_cons.
    destruct (decide (dedup_key mem ∈ seen)) as [Hin | Hnew].
    + rewrite IH. do 2 f_equal. apply set_eq. intros k.
      rewrite !elem_of_union, elem_of_singleton. intuition congruence.
    + cbn [app]. rewrite IH. do 3 f_equal. apply set_eq. intros k.
      rewrite !elem_of_union, elem_of_singleton. tauto.
Qed.





Lemma str_take_take (n : nat) (s : string) :
  PyMore.str_take n (PyMore.str_take n s) = PyMore.str_take n s.
Proof.
  revert s. induction n as [| n IH]; intros [| c s]; cbn; try done.
  by rewrite IH.
Qed.

End ExtractorFacts.

(** X20. [_categorize] always answers one of the seven categories of
    [CATEGORY_KEYWORDS], whatever the text. *)
Theorem categorize_known_category (text : string) :
  Extractor._categorize text
  ∈ ["arch"; "api"; "gotcha"; "error"; "cred"; "style"; "platform"].
Proof.
  unfold Extractor._categorize.
  destruct (categorize_in_range Extractor.CATEGORY_KEYWORDS (Py.lower text))
    as [H | ->]; [exact H |].
  apply list_elem_of_further, list_elem_of_further, list_elem_of_here.
Qed.

(** X21. The memories that [extract_memories] returns have pairwise
    distinct keys (content, lower-cased and stripped), are a subsequence
    of the memories found, and leave no key out: every memory found has
    its key among those returned. *)
Theorem extract_memories_deduplicates (pattern_memories : list Extracted.t)
  (llm_memories : option (list Extracted.t)) :
  let found :=
    pattern_memories ++ match llm_memories with Some l => l | None => [] end in
  let unique := Extractor.extract_memories pattern_memories llm_memories in
  NoDup (map Extractor.dedup_key unique)
  ∧ unique `sublist_of` found
  ∧ ∀ m, m ∈ found →
         Extractor.dedup_key m ∈ map Extractor.dedup_key unique.
Proof.
  intros found unique. unfold unique, Extractor.extract_memories. fold found.
  destruct (dedup_loop_keys found ∅) as (Hnd & _ & Hcov & Hsub).
  split; [done |]. split; [done |]. intros m Hm.
  destruct (Hcov m Hm) as [H | H]; [| done]. by apply not_elem_of_empty in H.
Qed.

(** X22. What the pattern search found is never displaced by the LLM:
    the result with LLM memories is the result without them, followed by
    those LLM memories whose key the pattern search did not produce. *)
Theorem llm_memories_only_extend (pattern_memories llm : list Extracted.t) :
  ∃ extra,
    Extractor.extract_memories pattern_memories (Some llm)
    = Extractor.extract_memories pattern_memories None ++ extra
    ∧ extra `sublist_of` llm
    ∧ ∀ m, m ∈ extra →
           Extractor.dedup_key m ∉ map Extractor.dedup_key pattern_memories.
Proof.
  exists (Extractor.dedup_loop
            (list_to_set (map Extractor.dedup_key pattern_memories) ∪ ∅) llm).
  unfold Extractor.extract_memories. rewrite dedup_loop_app, app_nil_r.
  split; [done |].
  destruct (dedup_loop_keys llm
              (list_to_set (map Extractor.dedup_key pattern_memories) ∪ ∅))
    as (_ & Hdisj & _ & Hsub).
  split; [done |]. intros m Hm Hk.
  apply (Hdisj (Extractor.dedup_key m)).
  - apply list_elem_of_fmap. eauto.
  - apply elem_of_union. left. by apply elem_of_list_to_set.
Qed.


(** ** Rendering *)

Section RenderFacts.
Import Memory.

Lemma group_add_keys (c : string) (item : Item.t)
  (g : list (string * list Item.t)) :
  map fst (group_add c item g)
  = if decide (c ∈ map fst g) then map fst g else map fst g ++ [c].
Proof.
  induction g as [| [k items] g IH]; cbn [group_add map fst].
  - rewrite decide_False; [done |]. intros H. by apply elem_of_nil in H.
  - destruct (String.eqb_spec k c) as [-> | Hne]; cbn [map fst].
    + rewrite decide_True; [done | apply list_elem_of_here].
    + rewrite IH. destruct (decide (c ∈ map fst g)) as [Hin | Hout].
      * rewrite decide_True; [done | by apply list_elem_of_further].
      * rewrite decide_False; [done |].
        intros H. apply elem_of_cons in H as [-> | H]; done.
Qed.

Lemma group_add_total (c : string) (item : Item.t)
  (g : list (string * list Item.t)) :
  sum_list_with (λ e : string * list Item.t, length e.2) (group_add c item g)
  = S (sum_list_with (λ e : string * list Item.t, length e.2) g).
Proof.
  induction g as [| [k items] g IH]; cbn [group_add sum_list_with snd length];
    [done |].
  destruct (String.eqb k c); cbn [sum_list_with snd].
  - rewrite length_app. cbn [length]. lia.
  - rewrite IH. lia.
Qed.

Lemma group_get_add (c k : string) (item : Item.t)
  (g : list (string * list Item.t)) :
  group_get k (group_add c item g)
  = if decide (c = k) then group_get k g ++ [item] else group_get k g.
Proof.
  induction g as [| [k0 items] g IH]; cbn [group_add group_get].
  - destruct (String.eqb_spec c k) as [-> | Hne].
    + by rewrite decide_True.
    + by rewrite decide_False.
  - destruct (String.eqb_spec k0 c) as [-> | Hne]; cbn [group_get].
    + destruct (String.eqb_spec c k) as [-> | Hne].
      * by rewrite decide_True.
      * by rewrite decide_False.
    + destruct (String.eqb_spec k0 k) as [-> | Hne'].
      * by rewrite decide_False by congruence.
      * apply IH.
Qed.

(** What grouping a list of items adds to the groups already there. *)
Lemma group_fold (items : list Item.t) :
  ∀ g,
    NoDup (map fst g) →
    let g' := foldl (λ by_category item,
                       group_add (Item.category item) item by_category) g items in
    NoDup (map fst g')
    ∧ list_to_set (map fst g')
      =@{gset string} list_to_set (map fst g)
                      ∪ list_to_set (map Item.category items)
    ∧ sum_list_with (λ e : string * list Item.t, length e.2) g'
      = (sum_list_with (λ e : string * list Item.t, length e.2) g
         + length items)%nat
    ∧ ∀ item, item ∈ items → item ∈ group_get (Item.category item) g'.
Proof.
  induction items as [| x rest IH] using rev_ind; intros g Hnd g'.
  - subst g'. cbn [foldl map length]. split; [done |].
    split; [by rewrite list_to_set_nil, (right_id_L ∅ (∪)) |].
    split; [lia |]. intros item H. by apply elem_of_nil in H.
  - subst g'. rewrite foldl_app. cbn [foldl].
    destruct (IH g Hnd) as (Hnd' & Hset & Htot & Hmem).
    set (g1 := foldl _ g rest) in *.
    split; [| split; [| split]].
    + rewrite group_add_keys. destruct (decide (Item.category x ∈ map fst g1));
        [done |].
      apply NoDup_app. split; [done |]. split; [| apply NoDup_singleton].
      intros k Hk Hx. apply list_elem_of_singleton in Hx as ->. done.
    + apply set_eq. intros k.
      rewrite elem_of_union, !elem_of_list_to_set, map_app, elem_of_app.
      cbn [map]. rewrite list_elem_of_singleton.
      assert (Hk1 : k ∈ map fst g1
                    ↔ k ∈ map fst g ∨ k ∈ map Item.category rest).
      { rewrite <- !(elem_of_list_to_set (C := gset string)), Hset.
        apply elem_of_union. }
      rewrite group_add_keys.
      destruct (decide (Item.category x ∈ map fst g1)) as [Hin | Hout].
      * rewrite Hk1. split; [tauto |].
        intros [H | [H | ->]]; [tauto | tauto |]. by apply Hk1.
      * rewrite elem_of_app, list_elem_of_singleton, Hk1. tauto.
    + rewrite group_add_total, Htot, length_app. cbn [length]. lia.
    + intros item Hitem. rewrite group_get_add.
      apply elem_of_app in Hitem as [Hitem | Hitem].
      * specialize (Hmem item Hitem).
        destruct (decide (Item.category x = Item.category item));
          [apply elem_of_app; by left | done].
      * apply list_elem_of_singleton in Hitem as ->.
        rewrite decide_True by done. apply elem_of_app. right.
        apply list_elem_of_here.
Qed.

Lemma sum_list_with_perm {A} (f : A → nat) (l1 l2 : list A) :
  l1 ≡ₚ l2 → sum_list_with f l1 = sum_list_with f l2.
Proof.
  induction 1 as [| x l1 l2 _ IH | x y l | l1 l2 l3 _ IH1 _ IH2];
    cbn [sum_list_with]; [done | lia | lia | congruence].
Qed.

Lemma flat_map_length_sum {A B} (f : A → list B) (l : list A) :
  length (flat_map f l) = sum_list_with (λ x, length (f x)) l.
Proof.
  induction l as [| x l IH]; [done |].
  cbn [flat_map sum_list_with]. by rewrite length_app, IH.
Qed.

Lemma group_get_total (g : list (string * list Item.t)) :
  NoDup (map fst g) →
  sum_list_with (λ k, length (group_get k g)) (map fst g)
  = sum_list_with (λ e : string * list Item.t, length e.2) g.
Proof.
  induction g as [| [k items] g IH]; intros Hnd; [done |].
  cbn [map fst] in Hnd. apply NoDup_cons in Hnd as [Hk Hnd].
  cbn [map fst sum_list_with snd group_get]. rewrite String.eqb_refl.
  f_equal. rewrite <- IH by done. clear IH.
  assert (Hall : ∀ k', k' ∈ map fst g → k ≠ k') by (intros k' H ->; done).
  revert Hall. generalize (map fst g) as ks.
  induction ks as [| k' ks IHks]; intros Hall; [done |].
  cbn [sum_list_with].
  destruct (String.eqb_spec k k') as [-> | _].
  - exfalso. by apply (Hall k'); [apply list_elem_of_here |].
  - rewrite IHks; [done |]. intros k'' H. apply Hall. by apply list_elem_of_further.
Qed.

(** The size of a rendering: a heading and a closing blank line for
    every category, and a line for every item. *)
Lemma render_length (heading : string → string) (line : Item.t → string)
  (items : list Item.t) :
  length
    (flat_map
       (λ category,
          heading category
          :: map line (group_get category (group_by_category items)) ++ [""])
       (Py.sort String.ltb (λ k : string, k)
          (map fst (group_by_category items))))
  = (2 * size (list_to_set (map Item.category items) : gset string)
     + length items)%nat.
Proof.
  destruct (group_fold items [] (NoDup_nil_2)) as (Hnd & Hset & Htot & _).
  fold (group_by_category items) in Hnd, Hset, Htot.
  rewrite flat_map_length_sum.
  rewrite (sum_list_with_perm _ _ _ (py_sort_perm String.ltb (λ k : string, k) _)).
  assert (Hsum : ∀ ks : list string,
            sum_list_with
              (λ x, length (heading x
                            :: map line (group_get x (group_by_category items))
                            ++ [""])) ks
            = (2 * length ks
               + sum_list_with
                   (λ k, length (group_get k (group_by_category items))) ks)%nat).
  { induction ks as [| k ks IH]; [done |].
    cbn [sum_list_with]. rewrite IH. cbn [length].
    rewrite length_app, length_map. cbn [length]. lia. }
  rewrite Hsum, group_get_total, Htot by done.
  cbn [map] in Hset. rewrite list_to_set_nil, (left_id_L ∅ (∪)) in Hset.
  rewrite <- Hset, size_list_to_set, length_map by done.
  cbn [sum_list_with]. lia.
Qed.

Lemma render_member (heading : string → string) (line : Item.t → string)
  (items : list Item.t) (item : Item.t) :
  item ∈ items →
  line item
  ∈ flat_map
      (λ category,
         heading category
         :: map line (group_get category (group_by_category items)) ++ [""])
      (Py.sort String.ltb (λ k : string, k)
         (map fst (group_by_category items))).
Proof.
  intros Hin.
  destruct (group_fold items [] (NoDup_nil_2)) as (_ & Hset & _ & Hmem).
  fold (group_by_category items) in Hset, Hmem.
  apply list_elem_of_In, in_flat_map. exists (Item.category item). split.
  - apply list_elem_of_In. rewrite py_sort_perm.
    apply (elem_of_list_to_set (C := gset string)). rewrite Hset.
    apply elem_of_union. right. apply elem_of_list_to_set.
    apply list_elem_of_fmap. eauto.
  - apply list_elem_of_In, list_elem_of_further, elem_of_app. left.
    apply list_elem_of_fmap. exists item. split; [done |]. by apply Hmem.
Qed.

End RenderFacts.

(** X24. [to_markdown] renders a heading and a closing blank line for
    every distinct category and one line for every item (joined by
    newlines); an empty list of items, like a missing one, renders the
    whole store. *)
Theorem to_markdown_line_count (self : MemoryStore.t) (items : list Item.t)
  (include_metadata : bool) :
  length (Memory.markdown_lines items include_metadata)
  = (2 * size (list_to_set (map Item.category items) : gset string)
     + length items)%nat
  ∧ Memory.to_markdown self (Some items) include_metadata
    = String.concat (String "010" "")
        (Memory.markdown_lines
           (if decide (items = []) then MemoryStore.memories self else items)
           include_metadata).
Proof.
  split; [apply render_length |].
  unfold Memory.to_markdown, PyMore.join. by destruct items.
Qed.

(** X25. Every item that goes into the hot file has its line there:
    its content after [**[!]** ] when it is critical and after [- ]
    otherwise; the file has two title lines, then a heading and a blank
    line for every category and a line for every item. *)
Theorem hot_file_has_every_item (hot_items : list Item.t) (item : Item.t) :
  item ∈ hot_items →
  ((if String.eqb (Item.priority item) "critical" then "**[!]** " else "- ")
   +:+ Item.content item) ∈ Memory.hot_lines hot_items
  ∧ length (Memory.hot_lines hot_items)
    = (2 + 2 * size (list_to_set (map Item.category hot_items) : gset string)
       + length hot_items)%nat.
Proof.
  intros Hin. unfold Memory.hot_lines. split.
  - apply elem_of_app. right.
    apply (render_member (λ category, "## " +:+ PyMore.title category)
             (λ item, (if String.eqb (Item.priority item) "critical"
                       then "**[!]** " else "- ") +:+ Item.content item)
             hot_items item Hin).
  - rewrite length_app, render_length. cbn [length]. lia.
Qed.

Lemma hot_file_has_every_item_witness :
  "**[!]** API uses port 8002"
  ∈ Memory.hot_lines [Examples.item_style; Examples.item_arch].
Proof.
  apply (hot_file_has_every_item [Examples.item_style; Examples.item_arch]
           Examples.item_arch).
  apply list_elem_of_further, list_elem_of_here.
Defined.

(** ** Cleaning extracted text *)

Section CleanFacts.
Import Extractor.

Lemma rev_app_rev_app (a b c : string) :
  String.rev_app (String.rev_app a b) c = String.rev_app b (a +:+ c).
Proof.
  revert b. induction a as [| x a IH]; intros b; [done |].
  cbn [String.rev_app]. rewrite IH. done.
Qed.

Lemma rev_rev_app (w : string) : String.rev (String.rev_app w "") = w.
Proof.
  unfold String.rev. rewrite rev_app_rev_app. cbn [String.rev_app].
  apply string_app_nil_r.
Qed.

Lemma nospace_rev_app (a b : string) :
  nospace (String.rev_app a b) = nospace a && nospace b.
Proof.
  revert b. induction a as [| x a IH]; intros b; [done |].
  cbn [String.rev_app nospace]. rewrite IH. cbn [nospace].
  destruct (Py.is_space x), (nospace a), (nospace b); done.
Qed.

Lemma rev_app_nonempty (a b : string) : a ≠ "" → String.rev_app a b ≠ "".
Proof.
  revert b. induction a as [| x a IH]; intros b Ha; [done |].
  cbn [String.rev_app]. destruct a as [| y a]; [done |]. by apply IH.
Qed.

(** Reading a run of non-whitespace characters only extends the pending
    run. *)
Lemma split_go_word (w cur s : string) :
  nospace w = true →
  Py.split_go cur (w +:+ s) = Py.split_go (String.rev_app w cur) s.
Proof.
  revert cur. induction w as [| c w IH]; intros cur Hw; [done |].
  cbn [nospace] in Hw. apply andb_true_iff in Hw as [Hc Hw].
  apply negb_true_iff in Hc.
  change (String c w +:+ s) with (String c (w +:+ s)).
  cbn [Py.split_go String.rev_app]. rewrite Hc. by apply IH.
Qed.

(** The words that [split] finds are non-empty and free of whitespace. *)
Lemma split_go_words (s : string) :
  ∀ cur, nospace cur = true →
         Forall (λ w, w ≠ "" ∧ nospace w = true) (Py.split_go cur s).
Proof.
  assert (Hrev : ∀ c cur, nospace (String c cur) = true →
            String.rev (String c cur) ≠ "" ∧ nospace (String.rev (String c cur)) = true).
  { intros c cur H. unfold String.rev. split.
    - by apply rev_app_nonempty.
    - rewrite nospace_rev_app, H. done. }
  induction s as [| c s IH]; intros cur Hcur; cbn [Py.split_go].
  - destruct cur as [| c' cur']; [constructor |].
    constructor; [by apply Hrev | constructor].
  - destruct (Py.is_space c) eqn:Hc.
    + destruct cur as [| c' cur']; [by apply IH |].
      constructor; [by apply Hrev | by apply IH].
    + apply IH. cbn [nospace]. by rewrite Hc, Hcur.
Qed.

(** Splitting what [" ".join] made of a list of words gives the words. *)
Lemma split_join_words (ws : list string) :
  Forall (λ w, w ≠ "" ∧ nospace w = true) ws →
  Py.split (PyMore.join " " ws) = ws.
Proof.
  unfold Py.split, PyMore.join.
  induction 1 as [| w ws [Hne Hns] Hws IH]; [done |].
  cbn [String.concat]. destruct ws as [| w2 ws].
  - rewrite <- (string_app_nil_r w) at 1. rewrite split_go_word by done.
    cbn [Py.split_go].
    pose proof (rev_app_nonempty w "" Hne) as Hr.
    destruct (String.rev_app w "") as [| c r] eqn:E; [done |].
    rewrite <- E. by rewrite rev_rev_app.
  - rewrite split_go_word by done.
    change (" " +:+ String.concat " " (w2 :: ws))
      with (String " " (String.concat " " (w2 :: ws))).
    cbn [Py.split_go].
    change (Py.is_space " ") with true. cbv iota.
    pose proof (rev_app_nonempty w "" Hne) as Hr.
    destruct (String.rev_app w "") as [| c r] eqn:E; [done |].
    rewrite <- E, rev_rev_app. f_equal. exact IH.
Qed.

Lemma upper_char_not_space (c : ascii) :
  Py.is_space c = false → Py.is_space (PyMore.upper_char c) = false.
Proof. destruct c as [[] [] [] [] [] [] [] []]; vm_compute; done. Qed.

End CleanFacts.

(** X26. What [_clean_text] returns is normalized: joining its words
    with single blanks gives it back, so it has no whitespace at either
    end, no whitespace but single blanks between words, and the same
    number of words as the text had after its role prefix. *)
Theorem clean_text_normalized (text : string) :
  PyMore.join " " (Py.split (Extractor._clean_text text))
  = Extractor._clean_text text
  ∧ length (Py.split (Extractor._clean_text text))
    = length (Py.split (Extractor.strip_role text)).
Proof.
  unfold Extractor._clean_text.
  pose proof (split_go_words (Extractor.strip_role text) "" eq_refl) as Hws.
  fold (Py.split (Extractor.strip_role text)) in Hws.
  destruct (Py.split (Extractor.strip_role text)) as [| w ws] eqn:E.
  - done.
  - apply Forall_cons in Hws as [[Hne Hns] Hws].
    destruct w as [| c w]; [done |].
    assert (Hcap : match PyMore.join " " (String c w :: ws) with
                   | "" => PyMore.join " " (String c w :: ws)
                   | String c0 rest => String (PyMore.upper_char c0) rest
                   end
                   = PyMore.join " " (String (PyMore.upper_char c) w :: ws)).
    { unfold PyMore.join. cbn [String.concat]. by destruct ws. }
    rewrite Hcap. rewrite split_join_words; [done |].
    constructor; [| done]. split; [done |].
    cbn [Extractor.nospace] in Hns |- *.
    apply andb_true_iff in Hns as [Hc Hw]. apply negb_true_iff in Hc.
    by rewrite (upper_char_not_space c Hc), Hw.
Qed.
